(** * Sistema Cashless: the wallet API of [backend/server.py]

    A shallow embedding of the FastAPI handlers and of the two MongoDB
    collections they work on, with the properties of the ledger stated and
    proved over it.

    Conventions of the embedding.
    - A collection is the list of its documents in insertion (natural)
      order; [find_one] returns the first match, [update_one] rewrites the
      first match, [insert_one] appends.
    - A handler is a function of the database that returns its outcome and
      the database it leaves behind.  [raise HTTPException] keeps whatever
      was written before it: nothing is rolled back.
    - Results of library calls the handlers make ([uuid.uuid4],
      [datetime.utcnow], [hashlib.sha256]) are arguments of the handler.
      The bearer token is taken as already decoded to its [user_id].
    - A Python [float] is a [float] of Rocq: the primitive binary64 numbers,
      with rounding to nearest even, signed zeros, infinities and NaN.
      [+], [-], [<?] and [<=?] are the operations of the machine, which the
      standard library specifies ([FloatAxioms]) by those of [SpecFloat].
      [Qval] is the exact value of a finite amount, as a rational.
    - A character of a Python [str] is one [ascii] (code points below 256).
    - Of a response the constant [message] is left out, and of the response
      of [register] the token. *)

From Stdlib Require Import List String Ascii Bool Arith ZArith QArith Lia.
From Stdlib Require Import Floats.
From Stdlib Require Import Permutation Sorted.
Import ListNotations.

Local Open Scope string_scope.
Local Open Scope float_scope.

(** ** Documents and request bodies *)

(** A document of [db.users], as [register] inserts it. *)
Record UserDoc := mkUserDoc {
  u_id : string;
  u_email : string;
  u_name : string;
  u_password : string;
  u_balance : float;
  u_nfc_id : option string;
  u_created_at : Z
}.

(** [class User(BaseModel)]: what [get_current_user] hands to a handler. *)
Record User := mkUser {
  id : string;
  email : string;
  name : string;
  balance : float;
  nfc_id : option string
}.

(** The [User] built from a document's fields (the extra keys are dropped). *)
Definition User_of_doc (d : UserDoc) : User :=
  mkUser (u_id d) (u_email d) (u_name d) (u_balance d) (u_nfc_id d).

(** A document of [db.transactions]. *)
Record Transaction := mkTransaction {
  t_id : string;
  from_user : string;
  to_user : string;
  amount : float;
  description : string;
  timestamp : Z;
  type : string
}.

Record UserCreate := mkUserCreate {
  uc_email : string;
  uc_name : string;
  uc_password : string
}.

Record RechargeRequest := mkRechargeRequest {
  r_amount : float
}.

Record NFCRegister := mkNFCRegister {
  n_nfc_id : string
}.

Record PaymentRequest := mkPaymentRequest {
  p_to_user : string;
  p_amount : float;
  p_description : string;
  p_method : string
}.

Record Database := mkDatabase {
  users : list UserDoc;
  transactions : list Transaction
}.

Definition empty_db : Database := mkDatabase [] [].

(** ** Outcomes *)

Inductive HTTPException := HTTPError (status_code : Z) (detail : string).

Definition status_of (e : HTTPException) : Z :=
  match e with HTTPError s _ => s end.

(** The exceptions the handlers raise, by the names the ledger gives them. *)
Definition Unauthorized := HTTPError 401 "Usuário não encontrado".
Definition EmailInUse := HTTPError 400 "Email já está em uso".
Definition InvalidAmount := HTTPError 400 "Valor deve ser positivo".
Definition InsufficientFunds := HTTPError 400 "Saldo insuficiente".
Definition RecipientNotFound :=
  HTTPError 404 "Usuário destinatário não encontrado".
Definition SelfTransfer :=
  HTTPError 400 "Não é possível transferir para si mesmo".
Definition NfcInUse := HTTPError 400 "NFC ID já está em uso".

(** ** The handler monad: database state and [HTTPException] *)

Definition M (A : Type) : Type := Database -> (HTTPException + A) * Database.

Definition ret {A} (a : A) : M A := fun db => (inr a, db).

Definition raise {A} (e : HTTPException) : M A := fun db => (inl e, db).

Definition bind {A B} (m : M A) (k : A -> M B) : M B :=
  fun db =>
    match m db with
    | (inl e, db') => (inl e, db')
    | (inr a, db') => k a db'
    end.

Notation "x <- m ;; k" := (bind m (fun x => k))
  (at level 61, m at next level, right associativity).
Notation "m ;; k" := (bind m (fun _ => k))
  (at level 61, right associativity).

(** ** Collection operations *)

(** [update_one]: the first document matching [p] is rewritten by [f]. *)
Fixpoint update_first {A} (p : A -> bool) (f : A -> A) (l : list A) : list A :=
  match l with
  | [] => []
  | x :: l' => if p x then f x :: l' else x :: update_first p f l'
  end.

Definition by_id (i : string) (d : UserDoc) : bool := String.eqb (u_id d) i.
Definition by_email (e : string) (d : UserDoc) : bool := String.eqb (u_email d) e.
Definition by_nfc_id (n : string) (d : UserDoc) : bool :=
  match u_nfc_id d with
  | Some n' => String.eqb n' n
  | None => false
  end.

Definition set_balance (b : float) (d : UserDoc) : UserDoc :=
  mkUserDoc (u_id d) (u_email d) (u_name d) (u_password d) b
            (u_nfc_id d) (u_created_at d).

Definition set_nfc_id (n : string) (d : UserDoc) : UserDoc :=
  mkUserDoc (u_id d) (u_email d) (u_name d) (u_password d) (u_balance d)
            (Some n) (u_created_at d).

(** [db.users.find_one(filter)] *)
Definition users_find_one (p : UserDoc -> bool) : M (option UserDoc) :=
  fun db => (inr (find p (users db)), db).

(** [db.users.insert_one(user)] *)
Definition users_insert_one (d : UserDoc) : M unit :=
  fun db => (inr tt, mkDatabase (users db ++ [d]) (transactions db)).

(** [db.users.update_one(filter, {"$set": ...})] *)
Definition users_update_one (p : UserDoc -> bool) (f : UserDoc -> UserDoc)
  : M unit :=
  fun db => (inr tt, mkDatabase (update_first p f (users db)) (transactions db)).

(** [db.transactions.insert_one(transaction)] *)
Definition transactions_insert_one (t : Transaction) : M unit :=
  fun db => (inr tt, mkDatabase (users db) (transactions db ++ [t])).

(** ** Handlers *)

(** [get_current_user], from the [user_id] the token carries. *)
Definition get_current_user (user_id : string) : M User :=
  user <- users_find_one (by_id user_id) ;;
  match user with
  | None => raise Unauthorized
  | Some d => ret (User_of_doc d)
  end.

Record RegisterResponse := mkRegisterResponse {
  rr_user : User
}.

(** [POST /api/register] *)
Definition register (user_data : UserCreate)
           (uuid4 sha256_hex : string) (utcnow : Z) : M RegisterResponse :=
  existing_user <- users_find_one (by_email (uc_email user_data)) ;;
  match existing_user with
  | Some _ => raise EmailInUse
  | None =>
      let user_id := uuid4 in
      let user := mkUserDoc user_id (uc_email user_data) (uc_name user_data)
                            sha256_hex 0 None utcnow in
      users_insert_one user ;;
      ret (mkRegisterResponse
             (mkUser user_id (uc_email user_data) (uc_name user_data) 0 None))
  end.

Record RechargeResponse := mkRechargeResponse {
  rc_new_balance : float;
  rc_transaction_id : string
}.

(** [POST /api/recharge], after [Depends(get_current_user)]. *)
Definition recharge_balance (recharge_data : RechargeRequest)
           (current_user : User) (uuid4 : string) (utcnow : Z)
  : M RechargeResponse :=
  if r_amount recharge_data <=? 0 then raise InvalidAmount
  else
    let new_balance := balance current_user + r_amount recharge_data in
    users_update_one (by_id (id current_user)) (set_balance new_balance) ;;
    let transaction :=
      mkTransaction uuid4 "system" (id current_user)
                    (r_amount recharge_data)
                    "Recarga de saldo" utcnow "recharge" in
    transactions_insert_one transaction ;;
    ret (mkRechargeResponse new_balance (t_id transaction)).

Record NfcResponse := mkNfcResponse {
  nr_nfc_id : string
}.

(** [POST /api/register-nfc], after [Depends(get_current_user)]. *)
Definition register_nfc (nfc_data : NFCRegister) (current_user : User)
  : M NfcResponse :=
  existing_nfc <- users_find_one (by_nfc_id (n_nfc_id nfc_data)) ;;
  if match existing_nfc with
     | Some e => negb (String.eqb (u_id e) (id current_user))
     | None => false
     end
  then raise NfcInUse
  else
    users_update_one (by_id (id current_user))
                     (set_nfc_id (n_nfc_id nfc_data)) ;;
    ret (mkNfcResponse (n_nfc_id nfc_data)).

Record PayResponse := mkPayResponse {
  pr_transaction_id : string;
  pr_new_balance : float;
  pr_recipient : string
}.

(** [POST /api/pay], after [Depends(get_current_user)]. *)
Definition make_payment (payment_data : PaymentRequest) (current_user : User)
           (uuid4 : string) (utcnow : Z) : M PayResponse :=
  if p_amount payment_data <=? 0 then raise InvalidAmount
  else if balance current_user <? p_amount payment_data
  then raise InsufficientFunds
  else
    recipient <- users_find_one (by_id (p_to_user payment_data)) ;;
    match recipient with
    | None => raise RecipientNotFound
    | Some recipient =>
        if String.eqb (id current_user) (p_to_user payment_data)
        then raise SelfTransfer
        else
          let new_sender_balance :=
            balance current_user - p_amount payment_data in
          let new_recipient_balance :=
            u_balance recipient + p_amount payment_data in
          users_update_one (by_id (id current_user))
                           (set_balance new_sender_balance) ;;
          users_update_one (by_id (p_to_user payment_data))
                           (set_balance new_recipient_balance) ;;
          let transaction :=
            mkTransaction uuid4 (id current_user) (p_to_user payment_data)
                          (p_amount payment_data)
                          (p_description payment_data) utcnow
                          (p_method payment_data) in
          transactions_insert_one transaction ;;
          ret (mkPayResponse (t_id transaction) new_sender_balance
                             (u_name recipient))
    end.

(** A request as the server receives it: the dependency
    [get_current_user] runs first, then the handler. *)
Definition api_recharge (user_id : string) (recharge_data : RechargeRequest)
           (uuid4 : string) (utcnow : Z) : M RechargeResponse :=
  current_user <- get_current_user user_id ;;
  recharge_balance recharge_data current_user uuid4 utcnow.

Definition api_register_nfc (user_id : string) (nfc_data : NFCRegister)
  : M NfcResponse :=
  current_user <- get_current_user user_id ;;
  register_nfc nfc_data current_user.

Definition api_pay (user_id : string) (payment_data : PaymentRequest)
           (uuid4 : string) (utcnow : Z) : M PayResponse :=
  current_user <- get_current_user user_id ;;
  make_payment payment_data current_user uuid4 utcnow.

(** ** Transaction history *)

(** An entry of the history: the stored document and the two keys the
    handler adds to it. *)
Record HistoryEntry := mkHistoryEntry {
  h_transaction : Transaction;
  from_name : string;
  to_name : string
}.

(** The [$or] filter of [get_transactions]. *)
Definition involves (user_id : string) (t : Transaction) : bool :=
  String.eqb (from_user t) user_id || String.eqb (to_user t) user_id.

(** [.sort("timestamp", -1)]: descending by timestamp.  Documents with equal
    timestamps keep their insertion order here; the server promises no order
    among them and no statement below depends on it. *)
Fixpoint insert_desc (t : Transaction) (l : list Transaction)
  : list Transaction :=
  match l with
  | [] => [t]
  | x :: l' =>
      if (timestamp x <=? timestamp t)%Z then t :: x :: l'
      else x :: insert_desc t l'
  end.

Definition sort_desc (l : list Transaction) : list Transaction :=
  fold_right insert_desc [] l.

(** [db.transactions.find(filter).sort("timestamp", -1).limit(50).to_list(50)] *)
Definition transactions_find_recent (p : Transaction -> bool)
  : M (list Transaction) :=
  fun db => (inr (firstn 50 (sort_desc (filter p (transactions db)))), db).

(** The [for] loop of [get_transactions], one database round per lookup. *)
Fixpoint for_each {A B} (f : A -> M B) (l : list A) : M (list B) :=
  match l with
  | [] => ret []
  | x :: l' =>
      y <- f x ;;
      ys <- for_each f l' ;;
      ret (y :: ys)
  end.

Definition name_or_default (o : option UserDoc) : string :=
  match o with
  | Some d => u_name d
  | None => "Usuário"
  end.

(** The body of the loop: resolve the names of both parties. *)
Definition resolve_names (transaction : Transaction) : M HistoryEntry :=
  fn <- (if String.eqb (from_user transaction) "system"
         then ret "Sistema"
         else
           from_doc <- users_find_one (by_id (from_user transaction)) ;;
           ret (name_or_default from_doc)) ;;
  to_doc <- users_find_one (by_id (to_user transaction)) ;;
  ret (mkHistoryEntry transaction fn (name_or_default to_doc)).

(** [GET /api/transactions], after [Depends(get_current_user)]. *)
Definition get_transactions (current_user : User) : M (list HistoryEntry) :=
  txs <- transactions_find_recent (involves (id current_user)) ;;
  for_each resolve_names txs.

(** ** User search *)

(** The query of [search_users] goes to MongoDB as a [$regex] with option
    [i].  Of the regular-expression language this model covers the patterns
    made of literal ASCII characters and of the wildcard [.]; a query that
    uses any other metacharacter, or a character above 127, is outside the
    model and compiles to [None]. *)
Inductive atom := Lit (c : ascii) | AnyChar.

Definition is_metachar (c : ascii) : bool :=
  existsb (Ascii.eqb c)
          (list_ascii_of_string "\^$*+?()[]{}|").

Definition is_ascii7 (c : ascii) : bool := (nat_of_ascii c <? 128)%nat.

Fixpoint regex_compile (q : string) : option (list atom) :=
  match q with
  | EmptyString => Some []
  | String c q' =>
      match regex_compile q' with
      | None => None
      | Some pat =>
          if Ascii.eqb c "." then Some (AnyChar :: pat)
          else if is_metachar c || negb (is_ascii7 c) then None
          else Some (Lit c :: pat)
      end
  end.

(** Case folding of option [i], on ASCII letters. *)
Definition lower (c : ascii) : ascii :=
  let n := nat_of_ascii c in
  if ((65 <=? n) && (n <=? 90))%nat then ascii_of_nat (n + 32) else c.

Fixpoint lower_str (s : string) : string :=
  match s with
  | EmptyString => EmptyString
  | String c s' => String (lower c) (lower_str s')
  end.

(** [.] matches any character but a line feed. *)
Definition atom_matches (a : atom) (c : ascii) : bool :=
  match a with
  | Lit l => Ascii.eqb (lower l) (lower c)
  | AnyChar => negb (Ascii.eqb c "010")
  end.

(** The pattern matches at the start of [s]. *)
Fixpoint match_here (pat : list atom) (s : string) : bool :=
  match pat, s with
  | [], _ => true
  | _ :: _, EmptyString => false
  | a :: pat', String c s' => atom_matches a c && match_here pat' s'
  end.

(** An unanchored pattern matches somewhere in [s]. *)
Fixpoint regex_search (pat : list atom) (s : string) : bool :=
  match_here pat s
  || match s with
     | EmptyString => false
     | String _ s' => regex_search pat s'
     end.

Record SearchHit := mkSearchHit {
  s_id : string;
  s_name : string;
  s_email : string
}.

(** The [$and] filter of [search_users]. *)
Definition search_filter (pat : list atom) (current_user : User)
           (d : UserDoc) : bool :=
  negb (String.eqb (u_id d) (id current_user))
  && (regex_search pat (u_name d) || regex_search pat (u_email d)).

(** [db.users.find(filter).limit(10).to_list(10)] *)
Definition users_find_10 (p : UserDoc -> bool) : M (list UserDoc) :=
  fun db => (inr (firstn 10 (filter p (users db))), db).

(** [GET /api/users/search], after [Depends(get_current_user)].  The
    outcome is [None] when the query is outside the modelled patterns. *)
Definition search_users (q : string) (current_user : User)
  : M (option (list SearchHit)) :=
  if (String.length q <? 2)%nat then ret (Some [])
  else
    match regex_compile q with
    | None => ret None
    | Some pat =>
        found <- users_find_10 (search_filter pat current_user) ;;
        ret (Some (map (fun user => mkSearchHit (u_id user) (u_name user)
                                                (u_email user)) found))
    end.

(** What it means for [s] to contain [q], and to contain it whatever the
    case of the letters. *)
Definition contains (s q : string) : Prop :=
  exists pre post, s = pre ++ q ++ post.

Definition contains_ci (s q : string) : Prop :=
  contains (lower_str s) (lower_str q).

(** ** Runs of the server, one request after the other *)

Inductive Request :=
| ReqRegister (user_data : UserCreate) (uuid4 sha256_hex : string) (utcnow : Z)
| ReqRecharge (user_id : string) (recharge_data : RechargeRequest)
              (uuid4 : string) (utcnow : Z)
| ReqRegisterNfc (user_id : string) (nfc_data : NFCRegister)
| ReqPay (user_id : string) (payment_data : PaymentRequest)
         (uuid4 : string) (utcnow : Z).

(** The database after the request is served (the other endpoints only
    read). *)
Definition serve (r : Request) (db : Database) : Database :=
  match r with
  | ReqRegister user_data uuid4 sha256_hex utcnow =>
      snd (register user_data uuid4 sha256_hex utcnow db)
  | ReqRecharge user_id recharge_data uuid4 utcnow =>
      snd (api_recharge user_id recharge_data uuid4 utcnow db)
  | ReqRegisterNfc user_id nfc_data =>
      snd (api_register_nfc user_id nfc_data db)
  | ReqPay user_id payment_data uuid4 utcnow =>
      snd (api_pay user_id payment_data uuid4 utcnow db)
  end.

(** What [uuid.uuid4] gives a new user: an identifier no user has, and
    which is not the sentinel of recharges. *)
Definition uuid_fresh (r : Request) (db : Database) : Prop :=
  match r with
  | ReqRegister _ uuid4 _ _ =>
      uuid4 <> "system" /\ ~ In uuid4 (map u_id (users db))
  | _ => True
  end.

Inductive reachable : Database -> Prop :=
| reach_empty : reachable empty_db
| reach_serve db r :
    reachable db -> uuid_fresh r db -> reachable (serve r db).

Definition run (rs : list Request) (db : Database) : Database :=
  fold_left (fun db r => serve r db) rs db.

(** The exact value of an amount: of a finite double the rational it
    stands for (zero for the infinities and NaN, which stand for none). *)
Definition Qval (x : float) : Q :=
  match Prim2SF x with
  | S754_finite s m e =>
      ((if s then -1 else 1) * (Zpos m # 1) * Qpower 2 e)%Q
  | _ => 0%Q
  end.

(** Zero, as [SpecFloat] has it. *)
Definition sf_zero : spec_float := S754_zero false.



(** The ledger's view of a user, as the server computes: from zero, each
    record of the log in turn adds its amount to the balance of its
    recipient and takes it from the balance of its sender, in binary64. *)
Definition apply_record (user_id : string) (b : float) (t : Transaction)
  : float :=
  if String.eqb (to_user t) user_id then b + amount t
  else if String.eqb (from_user t) user_id then b - amount t
  else b.

Definition replay (user_id : string) (txs : list Transaction) : float :=
  fold_left (apply_record user_id) txs 0.

(** No two users with different identifiers hold the same tag. *)
Definition nfc_unique (us : list UserDoc) : Prop :=
  forall d1 d2 n,
    In d1 us -> In d2 us ->
    u_nfc_id d1 = Some n -> u_nfc_id d2 = Some n -> u_id d1 = u_id d2.

(** ** Concurrent requests

    A handler is a coroutine: it runs without interruption from one [await]
    to the next, and every [await] of [make_payment] is one operation on the
    database.  A task is the point at which a call to [POST /api/pay] is
    suspended, with the locals it holds there. *)

Record PayCall := mkPayCall {
  c_user_id : string;
  c_payment_data : PaymentRequest;
  c_uuid4 : string;
  c_utcnow : Z
}.

Inductive PayTask :=
| AtCurrentUser
| AtRecipient (current_user : User)
| AtDebit (current_user : User) (recipient : UserDoc)
| AtCredit (current_user : User) (recipient : UserDoc)
| AtInsert (current_user : User) (recipient : UserDoc)
| Done (outcome : HTTPException + PayResponse).

(** Resume a suspended call: complete the [await] it waits on and run to
    the next one. *)
Definition resume (c : PayCall) (t : PayTask) (db : Database)
  : PayTask * Database :=
  let payment_data := c_payment_data c in
  match t with
  | AtCurrentUser =>
      match find (by_id (c_user_id c)) (users db) with
      | None => (Done (inl Unauthorized), db)
      | Some d =>
          let current_user := User_of_doc d in
          if p_amount payment_data <=? 0
          then (Done (inl InvalidAmount), db)
          else if balance current_user <? p_amount payment_data
          then (Done (inl InsufficientFunds), db)
          else (AtRecipient current_user, db)
      end
  | AtRecipient current_user =>
      match find (by_id (p_to_user payment_data)) (users db) with
      | None => (Done (inl RecipientNotFound), db)
      | Some recipient =>
          if String.eqb (id current_user) (p_to_user payment_data)
          then (Done (inl SelfTransfer), db)
          else (AtDebit current_user recipient, db)
      end
  | AtDebit current_user recipient =>
      let new_sender_balance := balance current_user - p_amount payment_data in
      (AtCredit current_user recipient,
       mkDatabase (update_first (by_id (id current_user))
                                (set_balance new_sender_balance) (users db))
                  (transactions db))
  | AtCredit current_user recipient =>
      let new_recipient_balance :=
        u_balance recipient + p_amount payment_data in
      (AtInsert current_user recipient,
       mkDatabase (update_first (by_id (p_to_user payment_data))
                                (set_balance new_recipient_balance) (users db))
                  (transactions db))
  | AtInsert current_user recipient =>
      let transaction :=
        mkTransaction (c_uuid4 c) (id current_user) (p_to_user payment_data)
                      (p_amount payment_data) (p_description payment_data)
                      (c_utcnow c) (p_method payment_data) in
      (Done (inr (mkPayResponse
                    (t_id transaction)
                    (balance current_user - p_amount payment_data)
                    (u_name recipient))),
       mkDatabase (users db) (transactions db ++ [transaction]))
  | Done outcome => (Done outcome, db)
  end.

(** A call run alone, [n] resumptions. *)
Fixpoint run_alone (n : nat) (c : PayCall) (t : PayTask) (db : Database)
  : PayTask * Database :=
  match n with
  | O => (t, db)
  | S n' => let (t', db') := resume c t db in run_alone n' c t' db'
  end.

(** The server with its calls in flight. *)
Record Server := mkServer {
  database : Database;
  tasks : list (PayCall * PayTask)
}.

Fixpoint resume_nth (i : nat) (ts : list (PayCall * PayTask)) (db : Database)
  : list (PayCall * PayTask) * Database :=
  match ts, i with
  | [], _ => ([], db)
  | (c, t) :: ts', O =>
      let (t', db') := resume c t db in ((c, t') :: ts', db')
  | ct :: ts', S i' =>
      let (ts'', db') := resume_nth i' ts' db in (ct :: ts'', db')
  end.

(** The event loop resumes the tasks in the order of the schedule. *)
Fixpoint run_schedule (schedule : list nat) (s : Server) : Server :=
  match schedule with
  | [] => s
  | i :: schedule' =>
      let (ts, db) := resume_nth i (tasks s) (database s) in
      run_schedule schedule' (mkServer db ts)
  end.

Definition start (db : Database) (calls : list PayCall) : Server :=
  mkServer db (map (fun c => (c, AtCurrentUser)) calls).

Definition outcomes (s : Server) : list PayTask := map snd (tasks s).

(** ** The other endpoints *)

Record UserLogin := mkUserLogin {
  ul_email : string;
  ul_password : string
}.

Record LoginResponse := mkLoginResponse {
  lr_user : User
}.

Definition LoginFailed := HTTPError 401 "Email ou senha inválidos".
Definition NfcNotFound := HTTPError 404 "Usuário NFC não encontrado".

Record NfcLookup := mkNfcLookup {
  nl_user_id : string;
  nl_name : string;
  nl_nfc_id : option string
}.

Record QrResponse := mkQrResponse {
  qr_data : string;
  qr_image : string;
  qr_user_name : string
}.

Section Libraries.
(** [hashlib.sha256(...).hexdigest()] and the rendering of a QR code to a
    base64 PNG are functions of their argument; which ones is left open. *)
Variable sha256_hexdigest : string -> string.
Variable generate_qr_code : string -> string.

Definition hash_password (password : string) : string :=
  sha256_hexdigest password.

Definition verify_password (password hashed : string) : bool :=
  String.eqb (hash_password password) hashed.

(** [POST /api/register] with the digest the handler computes. *)
Definition api_register (user_data : UserCreate) (uuid4 : string) (utcnow : Z)
  : M RegisterResponse :=
  register user_data uuid4 (hash_password (uc_password user_data)) utcnow.

(** [POST /api/login] *)
Definition login (login_data : UserLogin) : M LoginResponse :=
  user <- users_find_one (by_email (ul_email login_data)) ;;
  match user with
  | None => raise LoginFailed
  | Some user =>
      if negb (verify_password (ul_password login_data) (u_password user))
      then raise LoginFailed
      else ret (mkLoginResponse (User_of_doc user))
  end.

(** [GET /api/generate-qr], after [Depends(get_current_user)]. *)
Definition qr_string (current_user : User) : string :=
  "cashless:" ++ id current_user ++ ":" ++ name current_user.

Definition generate_payment_qr (current_user : User) : M QrResponse :=
  let qr_string := qr_string current_user in
  let qr_image := generate_qr_code qr_string in
  ret (mkQrResponse qr_string qr_image (name current_user)).

Definition api_generate_qr (user_id : string) : M QrResponse :=
  current_user <- get_current_user user_id ;;
  generate_payment_qr current_user.
End Libraries.

(** [GET /api/profile] *)
Definition get_profile (user_id : string) : M User :=
  get_current_user user_id.

(** [GET /api/pay-by-nfc/{nfc_id}] (no authentication). *)
Definition get_user_by_nfc (nfc : string) : M NfcLookup :=
  user <- users_find_one (by_nfc_id nfc) ;;
  match user with
  | None => raise NfcNotFound
  | Some user => ret (mkNfcLookup (u_id user) (u_name user) (u_nfc_id user))
  end.

Definition api_get_transactions (user_id : string) : M (list HistoryEntry) :=
  current_user <- get_current_user user_id ;;
  get_transactions current_user.

Definition api_search_users (q user_id : string)
  : M (option (list SearchHit)) :=
  current_user <- get_current_user user_id ;;
  search_users q current_user.

(** * The vocabulary of the properties *)

(** The balance the database holds for an identifier (zero for none). *)
Definition balance_of (db : Database) (user_id : string) : float :=
  match find (by_id user_id) (users db) with
  | Some d => u_balance d
  | None => 0
  end.

(** Every way [POST /api/pay] can end, for a caller the token resolves:
    by the outcome of its two comparisons, of the lookup of the recipient
    and of the comparison of the two identifiers. *)
Inductive PayCase (db : Database) (user_id : string)
          (payment_data : PaymentRequest) (sender : UserDoc) : Prop :=
| case_invalid :
    (p_amount payment_data <=? 0) = true ->
    PayCase db user_id payment_data sender
| case_insufficient :
    (p_amount payment_data <=? 0) = false ->
    (u_balance sender <? p_amount payment_data) = true ->
    PayCase db user_id payment_data sender
| case_not_found :
    (p_amount payment_data <=? 0) = false ->
    (u_balance sender <? p_amount payment_data) = false ->
    find (by_id (p_to_user payment_data)) (users db) = None ->
    PayCase db user_id payment_data sender
| case_self :
    (p_amount payment_data <=? 0) = false ->
    (u_balance sender <? p_amount payment_data) = false ->
    user_id = p_to_user payment_data ->
    PayCase db user_id payment_data sender
| case_paid recipient :
    (p_amount payment_data <=? 0) = false ->
    (u_balance sender <? p_amount payment_data) = false ->
    find (by_id (p_to_user payment_data)) (users db) = Some recipient ->
    user_id <> p_to_user payment_data ->
    PayCase db user_id payment_data sender.

(** The failure conditions read independently of one another, each error
    raised exactly under its own condition. *)
Definition pay_errors_independent : Prop :=
  forall db user_id payment_data uuid4 utcnow sender,
    find (by_id user_id) (users db) = Some sender ->
    let out := fst (api_pay user_id payment_data uuid4 utcnow db) in
    (out = inl InsufficientFunds
     <-> (u_balance sender <? p_amount payment_data) = true) /\
    (out = inl RecipientNotFound
     <-> find (by_id (p_to_user payment_data)) (users db) = None) /\
    (out = inl SelfTransfer <-> user_id = p_to_user payment_data) /\
    (out = inl InvalidAmount <-> (p_amount payment_data <=? 0) = true).

(** The writes of a request, as a relation between the database before and
    after. *)
Inductive effect (db : Database) : Request -> Database -> Prop :=
| eff_none r : effect db r db
| eff_register user_data uuid4 sha256_hex utcnow :
    find (by_email (uc_email user_data)) (users db) = None ->
    effect db (ReqRegister user_data uuid4 sha256_hex utcnow)
           (mkDatabase
              (users db
               ++ [mkUserDoc uuid4 (uc_email user_data) (uc_name user_data)
                             sha256_hex 0 None utcnow])
              (transactions db))
| eff_recharge user_id a uuid4 utcnow d :
    find (by_id user_id) (users db) = Some d ->
    (a <=? 0) = false ->
    effect db (ReqRecharge user_id (mkRechargeRequest a) uuid4 utcnow)
           (mkDatabase
              (update_first (by_id user_id) (set_balance (u_balance d + a))
                            (users db))
              (transactions db
               ++ [mkTransaction uuid4 "system" user_id a "Recarga de saldo"
                                 utcnow "recharge"]))
| eff_register_nfc user_id nfc d :
    find (by_id user_id) (users db) = Some d ->
    (forall e, find (by_nfc_id nfc) (users db) = Some e -> u_id e = user_id) ->
    effect db (ReqRegisterNfc user_id (mkNFCRegister nfc))
           (mkDatabase (update_first (by_id user_id) (set_nfc_id nfc)
                                     (users db))
                       (transactions db))
| eff_pay user_id payment_data uuid4 utcnow sender recipient :
    find (by_id user_id) (users db) = Some sender ->
    find (by_id (p_to_user payment_data)) (users db) = Some recipient ->
    (p_amount payment_data <=? 0) = false ->
    (u_balance sender <? p_amount payment_data) = false ->
    user_id <> p_to_user payment_data ->
    effect db (ReqPay user_id payment_data uuid4 utcnow)
           (mkDatabase
              (update_first (by_id (p_to_user payment_data))
                 (set_balance (u_balance recipient + p_amount payment_data))
                 (update_first (by_id user_id)
                    (set_balance (u_balance sender - p_amount payment_data))
                    (users db)))
              (transactions db
               ++ [mkTransaction uuid4 user_id (p_to_user payment_data)
                                 (p_amount payment_data)
                                 (p_description payment_data) utcnow
                                 (p_method payment_data)])).

(** Identifiers are distinct and none is the sentinel. *)
Definition ids_ok (db : Database) : Prop :=
  NoDup (map u_id (users db)) /\ ~ In "system" (map u_id (users db)).

(** Every record is between parties that exist (or from the sentinel). *)
Definition parties_ok (db : Database) : Prop :=
  forall t, In t (transactions db) ->
    (from_user t = "system" \/ In (from_user t) (map u_id (users db)))
    /\ In (to_user t) (map u_id (users db)).

(** No balance is below zero, and every balance is what the log replays
    to. *)
Definition ledger_ok (db : Database) : Prop :=
  forall d, In d (users db) ->
    (u_balance d <? 0) = false
    /\ u_balance d = replay (u_id d) (transactions db).

(** The invariant of the databases the server can reach. *)
Record consistent (db : Database) : Prop := mkConsistent {
  c_ids : ids_ok db;
  c_parties : parties_ok db;
  c_ledger : ledger_ok db;
  c_nfc : nfc_unique (users db)
}.

(** Every registration of a run draws a fresh identifier. *)
Fixpoint uuids_fresh (rs : list Request) (db : Database) : Prop :=
  match rs with
  | [] => True
  | r :: rs' => uuid_fresh r db /\ uuids_fresh rs' (serve r db)
  end.





(** [s] starts with [q]; [s] contains [q]: the decidable forms of
    [contains]. *)
Fixpoint prefixb (q s : string) : bool :=
  match q, s with
  | EmptyString, _ => true
  | String _ _, EmptyString => false
  | String a q', String b s' => Ascii.eqb a b && prefixb q' s'
  end.

Fixpoint containsb (s q : string) : bool :=
  prefixb q s
  || match s with
     | EmptyString => false
     | String _ s' => containsb s' q
     end.

(** A query that the server reads as it is written: ASCII, no wildcard and
    no other metacharacter. *)
Definition plain_char (c : ascii) : bool :=
  negb (Ascii.eqb c ".") && negb (is_metachar c || negb (is_ascii7 c)).

Fixpoint plain (q : string) : bool :=
  match q with
  | EmptyString => true
  | String c q' => plain_char c && plain q'
  end.

(** The pattern a plain query compiles to. *)
Fixpoint literals (q : string) : list atom :=
  match q with
  | EmptyString => []
  | String c q' => Lit c :: literals q'
  end.

(** Every schedule of two tasks, up to [n] resumptions. *)
Fixpoint schedules (n : nat) : list (list nat) :=
  match n with
  | O => [[]]
  | S n' =>
      [] :: flat_map (fun sch => [0%nat :: sch; 1%nat :: sch]) (schedules n')
  end.

(** A record as the ledger writes them: an amount that passed the check
    [amount <= 0] (it is not below or equal to zero), between two different
    parties. *)
Definition record_ok (t : Transaction) : Prop :=
  (amount t <=? 0) = false /\ from_user t <> to_user t.

(** What [register] fixes of a user for good. *)
Definition identity (d : UserDoc) : string * string * string * string * Z :=
  (u_id d, u_email d, u_name d, u_password d, u_created_at d).

(** No user is in debt: no balance is below zero. *)
Definition solvent (us : list UserDoc) : Prop :=
  forall d, In d us -> (u_balance d <? 0) = false.

(** What a suspended call to [POST /api/pay] has checked of its locals. *)
Definition task_checked (c : PayCall) (t : PayTask) : Prop :=
  match t with
  | AtCurrentUser | Done _ => True
  | AtRecipient current_user =>
      (p_amount (c_payment_data c) <=? 0) = false
      /\ (balance current_user <? p_amount (c_payment_data c)) = false
  | AtDebit current_user recipient
  | AtCredit current_user recipient
  | AtInsert current_user recipient =>
      (p_amount (c_payment_data c) <=? 0) = false
      /\ (balance current_user <? p_amount (c_payment_data c)) = false
      /\ (u_balance recipient <? 0) = false
  end.

(** The outcome of a request whose token names no user: the 401 error and
    the database as it was. *)
Definition refused_401 {A : Type} (db : Database)
  : (HTTPException + A) * Database :=
  (inl (HTTPError 401 "Usuário não encontrado"), db).

(** No colon in a string (as in the identifiers [uuid4] gives). *)
Fixpoint no_colon (s : string) : bool :=
  match s with
  | EmptyString => true
  | String c s' => negb (Ascii.eqb c ":") && no_colon s'
  end.

(** The users a plain query is about: the others whose name or email
    contains it. *)
Definition matches_query (q : string) (current_user : User) (d : UserDoc)
  : Prop :=
  u_id d <> id current_user
  /\ (contains_ci (u_name d) q \/ contains_ci (u_email d) q).

(** C2 read with amounts as the numbers they stand for: the two balances
    move by exactly the amount and their sum is what it was. *)
Definition transfer_exact : Prop :=
  forall db user_id payment_data uuid4 utcnow sender recipient,
    find (by_id user_id) (users db) = Some sender ->
    find (by_id (p_to_user payment_data)) (users db) = Some recipient ->
    (0 <? p_amount payment_data) = true ->
    user_id <> p_to_user payment_data ->
    (p_amount payment_data <=? u_balance sender) = true ->
    let to := p_to_user payment_data in
    let db' := snd (api_pay user_id payment_data uuid4 utcnow db) in
    (Qval (balance_of db' user_id)
     == Qval (balance_of db user_id) - Qval (p_amount payment_data))%Q /\
    (Qval (balance_of db' to)
     == Qval (balance_of db to) + Qval (p_amount payment_data))%Q /\
    (exists t, transactions db' = (transactions db ++ [t])%list) /\
    (Qval (balance_of db' user_id) + Qval (balance_of db' to)
     == Qval (balance_of db user_id) + Qval (balance_of db to))%Q.


(** C6 read the same way: the balance grows by exactly the amount. *)
Definition recharge_exact : Prop :=
  forall db user_id a uuid4 utcnow d,
    find (by_id user_id) (users db) = Some d ->
    let result := api_recharge user_id (mkRechargeRequest a) uuid4 utcnow db in
    ((0 <? a) = true ->
     (Qval (balance_of (snd result) user_id)
      == Qval (balance_of db user_id) + Qval a)%Q /\
     exists t,
       transactions (snd result) = (transactions db ++ [t])%list /\
       from_user t = "system" /\ to_user t = user_id /\
       type t = "recharge") /\
    ((a <=? 0) = true ->
     exists e, result = (inl e, db) /\ status_of e = 400%Z).

(** ** Sample data *)

(** The doubles Python writes 0.1, 0.2 and 0.4. *)
Definition tenth : float := 0x1.999999999999ap-4.
Definition fifth : float := 0x1.999999999999ap-3.
Definition two_fifths : float := 0x1.999999999999ap-2.

(** A holds 0.2 and B holds 0.4. *)
Definition small_change : Database :=
  mkDatabase [mkUserDoc "A" "ana@x.io" "Ana" "h1" fifth None 0;
              mkUserDoc "B" "bia@x.io" "Bia" "h2" two_fifths None 1] [].

(** A registers and recharges 0.1, then 0.2. *)
Definition two_recharges : list Request :=
  [ ReqRegister (mkUserCreate "ana@x.io" "Ana" "pw1") "A" "h1" 0;
    ReqRecharge "A" (mkRechargeRequest tenth) "t1" 1;
    ReqRecharge "A" (mkRechargeRequest fifth) "t2" 2 ].

Definition ana : UserDoc := mkUserDoc "A" "ana@x.io" "Ana" "h1" 100 None 0.
Definition bia : UserDoc := mkUserDoc "B" "bia@x.io" "Bia" "h2" 0 None 1.
Definition two_users : Database := mkDatabase [ana; bia] [].

Definition bob : UserDoc := mkUserDoc "B" "bob@x.io" "Bob" "h2" 0 None 1.
Definition directory : Database := mkDatabase [ana; bob] [].

(** The scenario of the specification: A registers and recharges 100, B
    registers, A pays B 10, then A tries to pay B 95. *)
Definition scenario : list Request :=
  [ ReqRegister (mkUserCreate "ana@x.io" "Ana" "pw1") "A" "h1" 0;
    ReqRecharge "A" (mkRechargeRequest 100) "t1" 1;
    ReqRegister (mkUserCreate "bia@x.io" "Bia" "pw2") "B" "h2" 2;
    ReqPay "A" (mkPaymentRequest "B" 10 "almoço" "transfer") "t2" 3;
    ReqPay "A" (mkPaymentRequest "B" 95 "jantar" "transfer") "t3" 4 ].

(** A and B register, B registers a tag. *)
Definition tagged : list Request :=
  [ ReqRegister (mkUserCreate "ana@x.io" "Ana" "pw1") "A" "h1" 0;
    ReqRegister (mkUserCreate "bia@x.io" "Bia" "pw2") "B" "h2" 2;
    ReqRegisterNfc "B" (mkNFCRegister "04:A2:19") ].

(** Two calls of 60 each from the account of A, which holds 100. *)
Definition racing : list PayCall :=
  [ mkPayCall "A" (mkPaymentRequest "B" 60 "um" "transfer") "t1" 1;
    mkPayCall "A" (mkPaymentRequest "B" 60 "dois" "transfer") "t2" 2 ].

(** * Properties *)

(** ** Amount comparisons and signs

    What the proofs below need of binary64, from the specification of the
    primitive operations by [SpecFloat]. *)

Lemma SFcompare_antisym x y :
  SFcompare y x = option_map CompOpp (SFcompare x y).
Proof.
  destruct x as [sx|sx| |sx mx ex], y as [sy|sy| |sy my ey]; cbn;
    try reflexivity;
    try (destruct sx; reflexivity); try (destruct sy; reflexivity);
    try (destruct sx, sy; reflexivity).
  destruct sx, sy; cbn; try reflexivity;
    rewrite (Z.compare_antisym ex ey); destruct (ex ?= ey)%Z; cbn;
      try reflexivity; f_equal;
      rewrite ?Pos.compare_cont_antisym; reflexivity.
Qed.

(** [a <= b] excludes [b < a], and [a < b] excludes [b <= a]. *)
Lemma le_not_lt a b : (a <=? b) = true -> (b <? a) = false.
Proof.
  rewrite ltb_spec, leb_spec. unfold SFltb, SFleb.
  rewrite (SFcompare_antisym (Prim2SF a) (Prim2SF b)).
  destruct (SFcompare (Prim2SF a) (Prim2SF b)) as [[]|]; cbn; congruence.
Qed.

Lemma lt_not_le a b : (a <? b) = true -> (b <=? a) = false.
Proof.
  rewrite ltb_spec, leb_spec. unfold SFltb, SFleb.
  rewrite (SFcompare_antisym (Prim2SF a) (Prim2SF b)).
  destruct (SFcompare (Prim2SF a) (Prim2SF b)) as [[]|]; cbn; congruence.
Qed.

Lemma Prim2SF_zero : Prim2SF 0 = sf_zero.
Proof. reflexivity. Qed.

(** Rounding keeps the sign. *)
Lemma binary_round_aux_nonneg mx ex lx :
  SFltb (binary_round_aux prec emax false mx ex lx) sf_zero = false.
Proof.
  unfold sf_zero, binary_round_aux.
  destruct (shr_fexp prec emax mx ex lx) as [mrs' e'].
  destruct (shr_fexp prec emax _ e' loc_Exact) as [mrs'' e''].
  destruct (shr_m mrs''); try reflexivity.
  destruct (e'' <=? emax - prec)%Z; reflexivity.
Qed.

Lemma binary_normalize_nonneg m e :
  (0 <= m)%Z -> SFltb (binary_normalize prec emax m e false) sf_zero = false.
Proof.
  destruct m as [|p|p]; intro H; [reflexivity | | lia].
  unfold binary_normalize, binary_round.
  destruct (shl_align p e _) as [mz ez]. apply binary_round_aux_nonneg.
Qed.

(** A balance that is not below zero, plus an amount that is not [<= 0], is
    not below zero (it may be NaN). *)
Lemma add_nonneg b a :
  (b <? 0) = false -> (a <=? 0) = false -> (b + a <? 0) = false.
Proof.
  rewrite !ltb_spec, leb_spec, add_spec, Prim2SF_zero. unfold sf_zero.
  destruct (Prim2SF b) as [sb|sb| |sb mb eb], (Prim2SF a) as [sa|sa| |sa ma ea];
    try solve [repeat match goal with s : bool |- _ => destruct s end;
               cbn; congruence].
  destruct sb; [cbn; congruence|]. destruct sa; [cbn; congruence|].
  intros _ _. unfold SF64add, SFadd. cbn [cond_Zopp].
  apply binary_normalize_nonneg. lia.
Qed.

Lemma digits2_pos_size m : digits2_pos m = Pos.size m.
Proof. induction m; simpl; congruence. Qed.

Lemma digits_upper m : (Zpos m < 2 ^ Zpos (digits2_pos m))%Z.
Proof.
  rewrite digits2_pos_size. pose proof (Pos.size_gt m) as H.
  apply Pos2Z.pos_lt_pos in H. now rewrite Pos2Z.inj_pow in H.
Qed.

Lemma digits_lower m : (2 ^ Zpos (digits2_pos m) <= 2 * Zpos m)%Z.
Proof.
  rewrite digits2_pos_size. pose proof (Pos.size_le m) as H.
  apply Pos2Z.pos_le_pos in H. now rewrite Pos2Z.inj_pow in H.
Qed.

Lemma shl_align_same m e : shl_align m e e = (m, e).
Proof. unfold shl_align. now rewrite Z.sub_diag. Qed.

Lemma shl_align_lower m e e' :
  (e' < e)%Z ->
  Zpos (fst (shl_align m e e')) = (Zpos m * 2 ^ (e - e'))%Z.
Proof.
  intro H. unfold shl_align.
  destruct (e' - e)%Z as [|d|d] eqn:E; try lia.
  cbn [fst]. change (Pos.iter xO m d) with (shift_pos d m).
  rewrite shift_pos_correct, Z.pow_pos_fold.
  replace (e - e')%Z with (Zpos d) by lia. ring.
Qed.

(** Of two positive doubles in canonical form, the one that is not the
    smaller has the larger mantissa once both are brought to the same
    exponent. *)
Lemma aligned_order mb eb ma ea :
  bounded prec emax mb eb = true ->
  bounded prec emax ma ea = true ->
  SFltb (S754_finite false mb eb) (S754_finite false ma ea) = false ->
  (Zpos (fst (shl_align ma ea (Z.min eb ea)))
   <= Zpos (fst (shl_align mb eb (Z.min eb ea))))%Z.
Proof.
  unfold bounded, canonical_mantissa, fexp, SpecFloat.emin.
  rewrite !andb_true_iff, !Z.eqb_eq. intros [Hb _] [Ha _].
  unfold SFltb. cbn [SFcompare].
  destruct (Z.compare_spec eb ea) as [E|E|E].
  - subst ea. rewrite Z.min_id, !shl_align_same. cbn [fst].
    change (Pos.compare_cont Eq mb ma) with (Pos.compare mb ma).
    destruct (Pos.compare_spec mb ma); try discriminate; intros _; lia.
  - discriminate.
  - intros _. rewrite Z.min_r by lia. rewrite shl_align_same. cbn [fst].
    rewrite shl_align_lower by lia.
    pose proof (digits_upper ma) as Hua. pose proof (digits_lower mb) as Hlb.
    assert (Hda : (Zpos (digits2_pos ma) <= 53)%Z)
      by (unfold prec, emax in *; lia).
    assert (Hdb : Zpos (digits2_pos mb) = 53%Z)
      by (unfold prec, emax in *; lia).
    rewrite Hdb in Hlb.
    assert (H53 : (2 ^ Zpos (digits2_pos ma) <= 2 ^ 53)%Z)
      by (apply Z.pow_le_mono_r; lia).
    assert (H2 : (2 ^ 1 <= 2 ^ (eb - ea))%Z) by (apply Z.pow_le_mono_r; lia).
    change (2 ^ 1)%Z with 2%Z in H2. nia.
Qed.

(** A balance less an amount that is not [<= 0] and that the balance is not
    below, is not below zero (it may be NaN). *)
Lemma sub_nonneg b a :
  (a <=? 0) = false -> (b <? a) = false -> (b - a <? 0) = false.
Proof.
  rewrite !ltb_spec, leb_spec, sub_spec, Prim2SF_zero. unfold sf_zero.
  pose proof (Prim2SF_valid b) as Vb. pose proof (Prim2SF_valid a) as Va.
  destruct (Prim2SF b) as [sb|sb| |sb mb eb], (Prim2SF a) as [sa|sa| |sa ma ea];
    try solve [repeat match goal with s : bool |- _ => destruct s end;
               cbn; congruence].
  destruct sa; [cbn; congruence|]. destruct sb; [cbn; congruence|].
  intros _ Hlt. unfold SF64sub, SFsub. cbn [cond_Zopp].
  apply binary_normalize_nonneg.
  pose proof (aligned_order mb eb ma ea Vb Va Hlt). lia.
Qed.

(** ** Collections *)

Lemma by_id_true i d : by_id i d = true <-> u_id d = i.
Proof. unfold by_id. apply String.eqb_eq. Qed.

Lemma by_id_false i d : by_id i d = false <-> u_id d <> i.
Proof. unfold by_id. apply String.eqb_neq. Qed.

Lemma by_id_set_balance i b d : by_id i (set_balance b d) = by_id i d.
Proof. reflexivity. Qed.

Lemma by_id_set_nfc_id i n d : by_id i (set_nfc_id n d) = by_id i d.
Proof. reflexivity. Qed.

Lemma find_by_id_Some i l d : find (by_id i) l = Some d -> In d l /\ u_id d = i.
Proof.
  intro H. apply find_some in H. destruct H as [Hin Hp].
  split; [assumption | now apply by_id_true].
Qed.

Section UpdateFirst.
Variable f : UserDoc -> UserDoc.
Hypothesis f_id : forall d, u_id (f d) = u_id d.

Lemma update_first_ids p l : map u_id (update_first p f l) = map u_id l.
Proof.
  induction l as [|x l IH]; simpl; [reflexivity|].
  destruct (p x); simpl; [now rewrite f_id | now rewrite IH].
Qed.

Lemma find_update_first_same i l :
  find (by_id i) (update_first (by_id i) f l)
  = option_map f (find (by_id i) l).
Proof.
  induction l as [|x l IH]; simpl; [reflexivity|].
  destruct (by_id i x) eqn:E; simpl.
  - assert (E' : by_id i (f x) = true)
      by (apply by_id_true; rewrite f_id; now apply by_id_true).
    now rewrite E'.
  - now rewrite E.
Qed.

Lemma find_update_first_other i j l :
  i <> j ->
  find (by_id j) (update_first (by_id i) f l) = find (by_id j) l.
Proof.
  intro Hij. induction l as [|x l IH]; simpl; [reflexivity|].
  destruct (by_id i x) eqn:E; simpl.
  - apply by_id_true in E.
    assert (E1 : by_id j (f x) = false)
      by (apply by_id_false; rewrite f_id; congruence).
    assert (E2 : by_id j x = false) by (apply by_id_false; congruence).
    now rewrite E1, E2.
  - destruct (by_id j x); [reflexivity | exact IH].
Qed.

(** With distinct identifiers the first match is the only one. *)
Lemma update_first_map i l :
  NoDup (map u_id l) ->
  update_first (by_id i) f l
  = map (fun d => if by_id i d then f d else d) l.
Proof.
  induction l as [|x l IH]; simpl; intro Hnd; [reflexivity|].
  inversion Hnd as [|? ? Hx Hl]; subst.
  destruct (by_id i x) eqn:E.
  - f_equal. apply by_id_true in E.
    clear IH Hnd Hl. induction l as [|y l IH]; simpl; [reflexivity|].
    simpl in Hx.
    assert (Ey : by_id i y = false)
      by (apply by_id_false; intro; apply Hx; left; congruence).
    rewrite Ey. f_equal. apply IH. intro; apply Hx; now right.
  - f_equal. now apply IH.
Qed.
End UpdateFirst.

Lemma update_first_fixed {A} (p : A -> bool) (f : A -> A) l :
  (forall x, In x l -> p x = true -> f x = x) -> update_first p f l = l.
Proof.
  induction l as [|x l IH]; simpl; intro H; [reflexivity|].
  destruct (p x) eqn:E.
  - f_equal. apply H; [now left | assumption].
  - f_equal. apply IH. intros y Hy. apply H. now right.
Qed.

(** ** The outcome of [POST /api/pay], case by case *)

Section Pay.
Variables (db : Database) (user_id : string) (payment_data : PaymentRequest)
          (uuid4 : string) (utcnow : Z).

Lemma pay_unauthorized :
  find (by_id user_id) (users db) = None ->
  api_pay user_id payment_data uuid4 utcnow db = (inl Unauthorized, db).
Proof.
  intro H. unfold api_pay, get_current_user, bind, users_find_one.
  now rewrite H.
Qed.

Variable sender : UserDoc.
Hypothesis Hsender : find (by_id user_id) (users db) = Some sender.

Lemma pay_invalid_amount :
  (p_amount payment_data <=? 0) = true ->
  api_pay user_id payment_data uuid4 utcnow db = (inl InvalidAmount, db).
Proof.
  intro H.
  unfold api_pay, get_current_user, bind, users_find_one.
  rewrite Hsender. cbn. unfold make_payment. now rewrite H.
Qed.

Lemma pay_insufficient :
  (p_amount payment_data <=? 0) = false ->
  (u_balance sender <? p_amount payment_data) = true ->
  api_pay user_id payment_data uuid4 utcnow db = (inl InsufficientFunds, db).
Proof.
  intros Ha Hb.
  unfold api_pay, get_current_user, bind, users_find_one.
  rewrite Hsender. cbn. unfold make_payment. rewrite Ha. cbn [balance id User_of_doc].
  now rewrite Hb.
Qed.

Lemma pay_recipient_not_found :
  (p_amount payment_data <=? 0) = false ->
  (u_balance sender <? p_amount payment_data) = false ->
  find (by_id (p_to_user payment_data)) (users db) = None ->
  api_pay user_id payment_data uuid4 utcnow db = (inl RecipientNotFound, db).
Proof.
  intros Ha Hb Hr.
  unfold api_pay, get_current_user, bind, users_find_one.
  rewrite Hsender. cbn. unfold make_payment. rewrite Ha. cbn [balance id User_of_doc].
  rewrite Hb. unfold bind, users_find_one. now rewrite Hr.
Qed.

Lemma pay_self_transfer :
  (p_amount payment_data <=? 0) = false ->
  (u_balance sender <? p_amount payment_data) = false ->
  user_id = p_to_user payment_data ->
  api_pay user_id payment_data uuid4 utcnow db = (inl SelfTransfer, db).
Proof.
  intros Ha Hb Hself.
  pose proof (find_by_id_Some _ _ _ Hsender) as [_ Hid].
  unfold api_pay, get_current_user, bind, users_find_one.
  rewrite Hsender. cbn. unfold make_payment. rewrite Ha. cbn [balance id User_of_doc].
  rewrite Hb. unfold bind, users_find_one. rewrite <- Hself, Hsender.
  rewrite Hid, String.eqb_refl. reflexivity.
Qed.

Lemma pay_success recipient :
  (p_amount payment_data <=? 0) = false ->
  (u_balance sender <? p_amount payment_data) = false ->
  find (by_id (p_to_user payment_data)) (users db) = Some recipient ->
  user_id <> p_to_user payment_data ->
  api_pay user_id payment_data uuid4 utcnow db
  = (inr (mkPayResponse uuid4
                        (u_balance sender - p_amount payment_data)
                        (u_name recipient)),
     mkDatabase
       (update_first (by_id (p_to_user payment_data))
          (set_balance (u_balance recipient + p_amount payment_data))
          (update_first (by_id user_id)
             (set_balance (u_balance sender - p_amount payment_data))
             (users db)))
       (transactions db
        ++ [mkTransaction uuid4 user_id (p_to_user payment_data)
                          (p_amount payment_data)
                          (p_description payment_data) utcnow
                          (p_method payment_data)])).
Proof.
  intros Ha Hb Hr Hne.
  pose proof (find_by_id_Some _ _ _ Hsender) as [_ Hid].
  unfold api_pay, get_current_user, bind, users_find_one.
  rewrite Hsender. cbn. unfold make_payment. rewrite Ha. cbn [balance id User_of_doc].
  rewrite Hb. unfold bind, users_find_one. rewrite Hr, Hid.
  apply String.eqb_neq in Hne. rewrite Hne. reflexivity.
Qed.
End Pay.

Lemma balance_of_find db user_id d :
  find (by_id user_id) (users db) = Some d -> balance_of db user_id = u_balance d.
Proof. intro H. unfold balance_of. now rewrite H. Qed.

Lemma pay_cases db user_id payment_data sender :
  find (by_id user_id) (users db) = Some sender ->
  PayCase db user_id payment_data sender.
Proof.
  intro Hs.
  destruct (p_amount payment_data <=? 0) eqn:Ha; [now apply case_invalid|].
  destruct (u_balance sender <? p_amount payment_data) eqn:Hb;
    [now apply case_insufficient|].
  destruct (string_dec user_id (p_to_user payment_data)) as [He|He];
    [now apply case_self|].
  destruct (find (by_id (p_to_user payment_data)) (users db)) as [r|] eqn:Hr.
  - now apply case_paid with r.
  - now apply case_not_found.
Qed.

Lemma balance_of_debited db i j bs br txs s :
  i <> j ->
  find (by_id i) (users db) = Some s ->
  balance_of
    (mkDatabase (update_first (by_id j) (set_balance br)
                   (update_first (by_id i) (set_balance bs) (users db))) txs)
    i = bs.
Proof.
  intros Hne Hs. unfold balance_of. cbn [users].
  rewrite find_update_first_other by (auto using by_id_set_balance).
  rewrite find_update_first_same by reflexivity.
  now rewrite Hs.
Qed.

Lemma balance_of_credited db i j bs br txs r :
  i <> j ->
  find (by_id j) (users db) = Some r ->
  balance_of
    (mkDatabase (update_first (by_id j) (set_balance br)
                   (update_first (by_id i) (set_balance bs) (users db))) txs)
    j = br.
Proof.
  intros Hne Hr. unfold balance_of. cbn [users].
  rewrite find_update_first_same by reflexivity.
  rewrite find_update_first_other by auto.
  now rewrite Hr.
Qed.

Ltac split_all :=
  repeat match goal with |- _ /\ _ => split end.

(** C2 as stated fails: A holds 0.2 and B holds 0.4; A pays B 0.1, and B
    is left with 0.5, which is not the number 0.4 stands for plus the number
    0.1 stands for: the sum was rounded. *)
Lemma transfer_exact_fails : ~ transfer_exact.
Proof.
  intro H.
  destruct (H small_change "A" (mkPaymentRequest "B" tenth "x" "transfer")
              "t1" 5%Z
              (mkUserDoc "A" "ana@x.io" "Ana" "h1" fifth None 0)
              (mkUserDoc "B" "bia@x.io" "Bia" "h2" two_fifths None 1)
              eq_refl eq_refl eq_refl)
    as (_ & Hcredit & _).
  - discriminate.
  - reflexivity.
  - vm_compute in Hcredit. discriminate Hcredit.
Qed.

(** Nor is the sum kept when it is taken in binary64: before the payment
    the two balances add up to 0.6000000000000001, after it to 0.6. *)
Example transfer_sum_not_kept :
  let db' := snd (api_pay "A" (mkPaymentRequest "B" tenth "x" "transfer")
                          "t1" 5 small_change) in
  map u_balance (users db') = [tenth; 0.5]
  /\ balance_of small_change "A" + balance_of small_change "B"
     = 0x1.3333333333334p-1
  /\ balance_of db' "A" + balance_of db' "B" = 0x1.3333333333333p-1.
Proof. vm_compute. repeat split; reflexivity. Qed.

(** C2, as the handler computes: a transfer that meets the preconditions
    (positive amount, another user as recipient, who exists, and a balance
    that is at least the amount) succeeds; afterwards the sender holds the
    binary64 difference of the prior balance and the amount, the recipient
    the binary64 sum of the prior balance and the amount (each the exact
    result rounded to the nearest double), and the log has grown by exactly
    one record, which describes the transfer; the two balances together are
    what they were whenever neither operation had to round. *)
Theorem transfer_moves_amount :
  forall db user_id payment_data uuid4 utcnow sender recipient,
    find (by_id user_id) (users db) = Some sender ->
    find (by_id (p_to_user payment_data)) (users db) = Some recipient ->
    (0 <? p_amount payment_data) = true ->
    user_id <> p_to_user payment_data ->
    (p_amount payment_data <=? u_balance sender) = true ->
    let a := p_amount payment_data in
    let to := p_to_user payment_data in
    let result := api_pay user_id payment_data uuid4 utcnow db in
    let db' := snd result in
    fst result = inr (mkPayResponse uuid4 (balance_of db user_id - a)
                                    (u_name recipient)) /\
    balance_of db' user_id = balance_of db user_id - a /\
    balance_of db' to = balance_of db to + a /\
    transactions db'
    = (transactions db
       ++ [mkTransaction uuid4 user_id to a (p_description payment_data)
                         utcnow (p_method payment_data)])%list /\
    ((Qval (balance_of db' user_id)
      == Qval (balance_of db user_id) - Qval a)%Q ->
     (Qval (balance_of db' to) == Qval (balance_of db to) + Qval a)%Q ->
     (Qval (balance_of db' user_id) + Qval (balance_of db' to)
      == Qval (balance_of db user_id) + Qval (balance_of db to))%Q).
Proof.
  intros db user_id payment_data uuid4 utcnow sender recipient
         Hs Hr Ha Hne Hb a to result db'.
  subst a to result db'.
  apply lt_not_le in Ha. apply le_not_lt in Hb.
  rewrite (pay_success db user_id payment_data uuid4 utcnow sender Hs
                       recipient Ha Hb Hr Hne).
  cbn [fst snd].
  rewrite (balance_of_debited _ _ _ _ _ _ _ Hne Hs).
  rewrite (balance_of_credited _ _ _ _ _ _ _ Hne Hr).
  rewrite (balance_of_find _ _ _ Hs), (balance_of_find _ _ _ Hr).
  split_all; try reflexivity.
  intros H1 H2. rewrite H1, H2. ring.
Qed.

Lemma transfer_moves_amount_witness :
  let r := api_pay "A" (mkPaymentRequest "B" 10 "almoço" "transfer")
                   "t1" 5 two_users in
  fst r = inr (mkPayResponse "t1" (balance_of two_users "A" - 10) "Bia") /\
  balance_of (snd r) "A" = balance_of two_users "A" - 10 /\
  balance_of (snd r) "B" = balance_of two_users "B" + 10 /\
  transactions (snd r)
  = (transactions two_users
     ++ [mkTransaction "t1" "A" "B" 10 "almoço" 5 "transfer"])%list /\
  ((Qval (balance_of (snd r) "A")
    == Qval (balance_of two_users "A") - Qval 10)%Q ->
   (Qval (balance_of (snd r) "B")
    == Qval (balance_of two_users "B") + Qval 10)%Q ->
   (Qval (balance_of (snd r) "A") + Qval (balance_of (snd r) "B")
    == Qval (balance_of two_users "A") + Qval (balance_of two_users "B"))%Q).
Proof.
  apply (transfer_moves_amount two_users "A"
           (mkPaymentRequest "B" 10 "almoço" "transfer") "t1" 5 ana bia).
  - reflexivity.
  - reflexivity.
  - reflexivity.
  - discriminate.
  - reflexivity.
Defined.

(** C5: when [POST /api/pay] ends in an error, whichever it is, no balance
    has been written and no record appended: the database is the one the
    request found. *)
Theorem failed_pay_changes_nothing :
  forall db user_id payment_data uuid4 utcnow e,
    fst (api_pay user_id payment_data uuid4 utcnow db) = inl e ->
    snd (api_pay user_id payment_data uuid4 utcnow db) = db.
Proof.
  intros db user_id payment_data uuid4 utcnow e He.
  destruct (find (by_id user_id) (users db)) as [sender|] eqn:Hs.
  - destruct (pay_cases db user_id payment_data sender Hs)
      as [Ha|Ha Hb|Ha Hb Hr|Ha Hb Hself|r Ha Hb Hr Hne].
    + now rewrite pay_invalid_amount with (sender := sender).
    + now rewrite pay_insufficient with (sender := sender).
    + now rewrite pay_recipient_not_found with (sender := sender).
    + now rewrite pay_self_transfer with (sender := sender).
    + rewrite pay_success with (sender := sender) (recipient := r) in He
        by assumption.
      discriminate He.
  - now rewrite pay_unauthorized.
Qed.

Lemma failed_pay_changes_nothing_witness :
  snd (api_pay "A" (mkPaymentRequest "B" 195 "x" "qr") "t2" 6 two_users)
  = two_users.
Proof.
  apply (failed_pay_changes_nothing two_users "A"
           (mkPaymentRequest "B" 195 "x" "qr") "t2" 6 InsufficientFunds).
  reflexivity.
Defined.

(** C10: the balance check comes before the lookup of the recipient and
    before the self-transfer check: with a positive amount that the sender's
    balance does not cover, the request ends in the 400 error
    "Saldo insuficiente" whoever the recipient is, missing or the sender
    included. *)
Theorem insufficient_funds_checked_first :
  forall db user_id payment_data uuid4 utcnow sender,
    find (by_id user_id) (users db) = Some sender ->
    (0 <? p_amount payment_data) = true ->
    (u_balance sender <? p_amount payment_data) = true ->
    api_pay user_id payment_data uuid4 utcnow db
    = (inl (HTTPError 400 "Saldo insuficiente"), db).
Proof.
  intros db user_id payment_data uuid4 utcnow sender Hs Ha Hb.
  apply lt_not_le in Ha. now apply pay_insufficient with (sender := sender).
Qed.

Lemma insufficient_funds_checked_first_witness :
  api_pay "A" (mkPaymentRequest "nobody" 101 "x" "nfc") "t3" 7 two_users
  = (inl (HTTPError 400 "Saldo insuficiente"), two_users)
  /\ api_pay "A" (mkPaymentRequest "A" 101 "x" "nfc") "t3" 7 two_users
     = (inl (HTTPError 400 "Saldo insuficiente"), two_users).
Proof.
  split.
  - apply (insufficient_funds_checked_first two_users "A"
             (mkPaymentRequest "nobody" 101 "x" "nfc") "t3" 7 ana);
      reflexivity.
  - apply (insufficient_funds_checked_first two_users "A"
             (mkPaymentRequest "A" 101 "x" "nfc") "t3" 7 ana);
      reflexivity.
Defined.

(** ** The four failures of [POST /api/pay] *)

(** C4 as stated fails: a transfer to oneself of more than one holds ends
    in [InsufficientFunds], not in [SelfTransfer]. *)
Lemma pay_errors_independent_fails : ~ pay_errors_independent.
Proof.
  intro H.
  destruct (H two_users "A" (mkPaymentRequest "A" 150 "x" "transfer")
              "t4" 8%Z ana eq_refl) as (_ & _ & [_ Hself] & _).
  specialize (Hself eq_refl). discriminate Hself.
Qed.

Ltac crack H :=
  repeat match type of H with
         | _ /\ _ => let H' := fresh in destruct H as [H' H]
         end.

(** An equivalence between "the outcome is this error" and a condition,
    once the outcome is known. *)
Ltac settle_iff :=
  let H := fresh "H" in
  split; intro H;
  [ first [ discriminate H | split_all; assumption ]
  | first [ reflexivity
          | exfalso; crack H; first [ congruence | contradiction ] ] ].

(** C4, as the handler has it: the checks run in a fixed order and the
    first that fails decides the error.  [InvalidAmount] exactly when the
    amount is [<= 0]; [InsufficientFunds] exactly when the amount is not
    [<= 0] and the sender's balance is below it; [RecipientNotFound] (404)
    exactly when the amount is not [<= 0], the balance is not below it and no
    user has the recipient's identifier; [SelfTransfer] exactly when the
    amount is not [<= 0], the balance is not below it and the recipient is
    the sender.  (For numbers, "not [<= 0]" is "positive" and "not below" is
    "at least"; an amount that is NaN is neither [<= 0] nor above any
    balance, and passes both checks.) *)
Theorem pay_errors_in_order :
  forall db user_id payment_data uuid4 utcnow sender,
    find (by_id user_id) (users db) = Some sender ->
    let out := fst (api_pay user_id payment_data uuid4 utcnow db) in
    let a := p_amount payment_data in
    (out = inl InvalidAmount <-> (a <=? 0) = true) /\
    (out = inl InsufficientFunds
     <-> (a <=? 0) = false /\ (u_balance sender <? a) = true) /\
    (out = inl RecipientNotFound
     <-> (a <=? 0) = false /\ (u_balance sender <? a) = false /\
         find (by_id (p_to_user payment_data)) (users db) = None) /\
    (out = inl SelfTransfer
     <-> (a <=? 0) = false /\ (u_balance sender <? a) = false /\
         user_id = p_to_user payment_data) /\
    status_of InvalidAmount = 400%Z /\
    status_of InsufficientFunds = 400%Z /\
    status_of RecipientNotFound = 404%Z /\
    status_of SelfTransfer = 400%Z.
Proof.
  intros db user_id payment_data uuid4 utcnow sender Hs out a.
  subst out a.
  destruct (pay_cases db user_id payment_data sender Hs)
    as [Ha|Ha Hb|Ha Hb Hr|Ha Hb Hself|r Ha Hb Hr Hne].
  - rewrite pay_invalid_amount with (sender := sender) by assumption.
    cbn [fst]. split_all; try reflexivity; settle_iff.
  - rewrite pay_insufficient with (sender := sender) by assumption.
    cbn [fst]. split_all; try reflexivity; settle_iff.
  - rewrite pay_recipient_not_found with (sender := sender) by assumption.
    cbn [fst]. split_all; try reflexivity; settle_iff.
  - rewrite pay_self_transfer with (sender := sender) by assumption.
    cbn [fst]. split_all; try reflexivity; settle_iff.
  - rewrite pay_success with (sender := sender) (recipient := r)
      by assumption.
    cbn [fst]. split_all; try reflexivity; settle_iff.
Qed.

Lemma pay_errors_in_order_witness :
  let payment_data := mkPaymentRequest "A" 150 "x" "transfer" in
  let out := fst (api_pay "A" payment_data "t4" 8 two_users) in
  (out = inl InvalidAmount <-> (150 <=? 0) = true) /\
  (out = inl InsufficientFunds
   <-> (150 <=? 0) = false /\ (u_balance ana <? 150) = true) /\
  (out = inl RecipientNotFound
   <-> (150 <=? 0) = false /\ (u_balance ana <? 150) = false /\
       find (by_id "A") (users two_users) = None) /\
  (out = inl SelfTransfer
   <-> (150 <=? 0) = false /\ (u_balance ana <? 150) = false /\ "A" = "A") /\
  status_of InvalidAmount = 400%Z /\
  status_of InsufficientFunds = 400%Z /\
  status_of RecipientNotFound = 404%Z /\
  status_of SelfTransfer = 400%Z.
Proof.
  apply (pay_errors_in_order two_users "A"
           (mkPaymentRequest "A" 150 "x" "transfer") "t4" 8%Z ana).
  reflexivity.
Defined.

(** An amount that is NaN passes both checks: with a recipient who is
    missing the request ends in the 404 error, though the amount is not
    positive. *)
Example pay_nan_passes_the_checks :
  api_pay "A" (mkPaymentRequest "nobody" nan "x" "qr") "t4" 8 two_users
  = (inl RecipientNotFound, two_users)
  /\ (0 <? nan) = false.
Proof. split; reflexivity. Qed.

(** ** Recharge *)

Section Recharge.
Variables (db : Database) (user_id : string) (a : float)
          (uuid4 : string) (utcnow : Z) (d : UserDoc).
Hypothesis Hd : find (by_id user_id) (users db) = Some d.

Lemma recharge_invalid_amount :
  (a <=? 0) = true ->
  api_recharge user_id (mkRechargeRequest a) uuid4 utcnow db
  = (inl InvalidAmount, db).
Proof.
  intro Ha.
  unfold api_recharge, get_current_user, bind, users_find_one.
  rewrite Hd. cbn. unfold recharge_balance. cbn [r_amount]. now rewrite Ha.
Qed.

Lemma recharge_success :
  (a <=? 0) = false ->
  api_recharge user_id (mkRechargeRequest a) uuid4 utcnow db
  = (inr (mkRechargeResponse (u_balance d + a) uuid4),
     mkDatabase
       (update_first (by_id user_id) (set_balance (u_balance d + a))
                     (users db))
       (transactions db
        ++ [mkTransaction uuid4 "system" user_id a "Recarga de saldo"
                          utcnow "recharge"])).
Proof.
  intro Ha.
  pose proof (find_by_id_Some _ _ _ Hd) as [_ Hid].
  unfold api_recharge, get_current_user, bind, users_find_one.
  rewrite Hd. cbn. unfold recharge_balance. cbn [r_amount]. rewrite Ha.
  cbn [balance id User_of_doc]. rewrite Hid. reflexivity.
Qed.
End Recharge.

(** C6 as stated fails: a user who holds 0.1 and recharges 0.2 is left with
    0.30000000000000004, which is not the number 0.1 stands for plus the
    number 0.2 stands for: the sum was rounded. *)
Lemma recharge_exact_fails : ~ recharge_exact.
Proof.
  intro H.
  destruct (H (mkDatabase [mkUserDoc "A" "ana@x.io" "Ana" "h1" tenth None 0] [])
              "A" fifth "t1" 1%Z
              (mkUserDoc "A" "ana@x.io" "Ana" "h1" tenth None 0) eq_refl)
    as [Hpos _].
  destruct (Hpos eq_refl) as [Hsum _].
  vm_compute in Hsum. discriminate Hsum.
Qed.

(** C6, as the handler computes: for a caller the token resolves, a
    recharge of a positive amount leaves the caller with the binary64 sum of
    the prior balance and the amount (the exact sum rounded to the nearest
    double) and appends exactly one record, from the sentinel "system" to
    the caller, of that amount and of type "recharge"; a recharge of an
    amount that is [<= 0] ends in a 400 error and leaves the database as it
    was. *)
Theorem recharge_adds_amount :
  forall db user_id a uuid4 utcnow d,
    find (by_id user_id) (users db) = Some d ->
    let result := api_recharge user_id (mkRechargeRequest a) uuid4 utcnow db in
    ((0 <? a) = true ->
     fst result = inr (mkRechargeResponse (balance_of db user_id + a) uuid4) /\
     balance_of (snd result) user_id = balance_of db user_id + a /\
     exists t,
       transactions (snd result) = (transactions db ++ [t])%list /\
       from_user t = "system" /\ to_user t = user_id /\
       type t = "recharge" /\ amount t = a) /\
    ((a <=? 0) = true ->
     exists e, result = (inl e, db) /\ status_of e = 400%Z).
Proof.
  intros db user_id a uuid4 utcnow d Hd result. subst result. split.
  - intro Ha. apply lt_not_le in Ha.
    rewrite (recharge_success db user_id a uuid4 utcnow d Hd Ha).
    cbn [fst snd]. rewrite (balance_of_find _ _ _ Hd). split_all.
    + reflexivity.
    + unfold balance_of. cbn [users].
      rewrite find_update_first_same by reflexivity. now rewrite Hd.
    + eexists. split; [reflexivity|]. repeat split.
  - intro Ha. exists InvalidAmount. split; [|reflexivity].
    now apply recharge_invalid_amount with (d := d).
Qed.

Lemma recharge_adds_amount_witness :
  (balance_of (snd (api_recharge "B" (mkRechargeRequest 25) "t5" 9 two_users))
              "B"
   = balance_of two_users "B" + 25)
  /\ (exists e, api_recharge "B" (mkRechargeRequest (-3)) "t6" 9 two_users
                = (inl e, two_users)
                /\ status_of e = 400%Z).
Proof.
  split.
  - destruct (recharge_adds_amount two_users "B" 25 "t5" 9%Z bia eq_refl)
      as [Hpos _].
    destruct (Hpos eq_refl) as (_ & Hbal & _). exact Hbal.
  - destruct (recharge_adds_amount two_users "B" (-3) "t6" 9%Z bia eq_refl)
      as [_ Hneg].
    apply Hneg. reflexivity.
Defined.

(** ** What a request does to the database *)

Section Register.
Variables (db : Database) (user_data : UserCreate)
          (uuid4 sha256_hex : string) (utcnow : Z).

Lemma register_email_in_use d :
  find (by_email (uc_email user_data)) (users db) = Some d ->
  register user_data uuid4 sha256_hex utcnow db = (inl EmailInUse, db).
Proof.
  intro H. unfold register, bind, users_find_one. now rewrite H.
Qed.

Lemma register_success :
  find (by_email (uc_email user_data)) (users db) = None ->
  snd (register user_data uuid4 sha256_hex utcnow db)
  = mkDatabase
      (users db ++ [mkUserDoc uuid4 (uc_email user_data) (uc_name user_data)
                              sha256_hex 0 None utcnow])
      (transactions db).
Proof.
  intro H. unfold register, bind, users_find_one. now rewrite H.
Qed.
End Register.

Section RegisterNfc.
Variables (db : Database) (user_id nfc : string).

Lemma register_nfc_unauthorized :
  find (by_id user_id) (users db) = None ->
  api_register_nfc user_id (mkNFCRegister nfc) db = (inl Unauthorized, db).
Proof.
  intro H. unfold api_register_nfc, get_current_user, bind, users_find_one.
  now rewrite H.
Qed.

Variable d : UserDoc.
Hypothesis Hd : find (by_id user_id) (users db) = Some d.

Lemma register_nfc_in_use e :
  find (by_nfc_id nfc) (users db) = Some e ->
  u_id e <> user_id ->
  api_register_nfc user_id (mkNFCRegister nfc) db = (inl NfcInUse, db).
Proof.
  intros He Hne.
  pose proof (find_by_id_Some _ _ _ Hd) as [_ Hid].
  unfold api_register_nfc, get_current_user, bind, users_find_one.
  rewrite Hd. cbn. unfold register_nfc, bind, users_find_one.
  rewrite He. cbn [id User_of_doc]. rewrite Hid.
  apply String.eqb_neq in Hne. now rewrite Hne.
Qed.

Lemma register_nfc_success :
  (forall e, find (by_nfc_id nfc) (users db) = Some e -> u_id e = user_id) ->
  api_register_nfc user_id (mkNFCRegister nfc) db
  = (inr (mkNfcResponse nfc),
     mkDatabase (update_first (by_id user_id) (set_nfc_id nfc) (users db))
                (transactions db)).
Proof.
  intro Hfree.
  pose proof (find_by_id_Some _ _ _ Hd) as [_ Hid].
  unfold api_register_nfc, get_current_user, bind, users_find_one.
  rewrite Hd. cbn. unfold register_nfc, bind, users_find_one.
  cbn [id User_of_doc]. rewrite Hid.
  destruct (find (by_nfc_id nfc) (users db)) as [e|] eqn:He.
  - rewrite (Hfree e eq_refl), String.eqb_refl. reflexivity.
  - reflexivity.
Qed.
End RegisterNfc.

Lemma serve_effect r db : effect db r (serve r db).
Proof.
  destruct r as [user_data uuid4 sha utcnow | user_id [a] uuid4 utcnow
                | user_id [nfc] | user_id payment_data uuid4 utcnow];
    cbn [serve].
  - destruct (find (by_email (uc_email user_data)) (users db)) eqn:E.
    + rewrite register_email_in_use with (d := u) by assumption. constructor.
    + rewrite register_success by assumption. now constructor.
  - destruct (find (by_id user_id) (users db)) as [d|] eqn:Hd.
    + destruct (a <=? 0) eqn:Ha.
      * rewrite recharge_invalid_amount with (d := d) by assumption.
        constructor.
      * rewrite recharge_success with (d := d) by assumption.
        now constructor.
    + unfold api_recharge, get_current_user, bind, users_find_one.
      rewrite Hd. constructor.
  - destruct (find (by_id user_id) (users db)) as [d|] eqn:Hd.
    + destruct (find (by_nfc_id nfc) (users db)) as [e|] eqn:He.
      * destruct (string_dec (u_id e) user_id) as [Heq|Hne].
        -- rewrite register_nfc_success with (d := d);
             [|assumption|intros e' He'; congruence].
           apply eff_register_nfc with d; [assumption|].
           intros e' He'. congruence.
        -- rewrite register_nfc_in_use with (d := d) (e := e) by assumption.
           constructor.
      * rewrite register_nfc_success with (d := d);
          [|assumption|intros e' He'; congruence].
        apply eff_register_nfc with d; [assumption|].
        intros e' He'. congruence.
    + rewrite register_nfc_unauthorized by assumption. constructor.
  - destruct (find (by_id user_id) (users db)) as [sender|] eqn:Hs.
    + destruct (pay_cases db user_id payment_data sender Hs)
        as [Ha|Ha Hb|Ha Hb Hr|Ha Hb Hself|rcp Ha Hb Hr Hne].
      * rewrite pay_invalid_amount with (sender := sender) by assumption.
        constructor.
      * rewrite pay_insufficient with (sender := sender) by assumption.
        constructor.
      * rewrite pay_recipient_not_found with (sender := sender)
          by assumption.
        constructor.
      * rewrite pay_self_transfer with (sender := sender) by assumption.
        constructor.
      * rewrite pay_success with (sender := sender) (recipient := rcp)
          by assumption.
        now constructor.
    + rewrite pay_unauthorized by assumption. constructor.
Qed.

(** ** Invariants of the reachable databases *)

Lemma replay_app user_id txs t :
  replay user_id (txs ++ [t]) = apply_record user_id (replay user_id txs) t.
Proof. unfold replay. now rewrite fold_left_app. Qed.

Lemma replay_stranger user_id txs :
  (forall t, In t txs -> from_user t <> user_id /\ to_user t <> user_id) ->
  replay user_id txs = 0.
Proof.
  unfold replay. generalize 0.
  induction txs as [|x txs IH]; intros b H; [reflexivity|].
  cbn [fold_left]. rewrite IH by (intros t Ht; apply H; now right).
  destruct (H x (or_introl eq_refl)) as [Hfrom Hto].
  unfold apply_record.
  apply String.eqb_neq in Hfrom, Hto. now rewrite Hto, Hfrom.
Qed.

Lemma find_by_id_In l d :
  NoDup (map u_id l) -> In d l -> find (by_id (u_id d)) l = Some d.
Proof.
  induction l as [|x l IH]; simpl; intros Hnd Hin; [contradiction|].
  inversion Hnd as [|? ? Hx Hl]; subst.
  destruct Hin as [->|Hin].
  - unfold by_id. now rewrite String.eqb_refl.
  - destruct (by_id (u_id d) x) eqn:E.
    + apply by_id_true in E. exfalso. apply Hx. rewrite E.
      now apply in_map.
    + now apply IH.
Qed.

Lemma find_by_id_ids i l d :
  find (by_id i) l = Some d -> In i (map u_id l).
Proof.
  intro H. apply find_by_id_Some in H. destruct H as [Hin <-].
  now apply in_map.
Qed.

Lemma effect_ids db r db' :
  effect db r db' -> uuid_fresh r db -> ids_ok db -> ids_ok db'.
Proof.
  intros He Hf [Hnd Hsys].
  destruct He; unfold ids_ok; cbn [users];
    rewrite ?update_first_ids by reflexivity; try (split; assumption).
  cbn [uuid_fresh] in Hf. destruct Hf as [Hne Hnew].
  rewrite map_app. cbn [map u_id]. split.
  - apply Permutation_NoDup with (l := uuid4 :: map u_id (users db));
      [apply Permutation_cons_append | now constructor].
  - rewrite in_app_iff. intros [Hin|[Hin|[]]]; [now apply Hsys | congruence].
Qed.

Lemma effect_parties db r db' :
  effect db r db' -> parties_ok db -> parties_ok db'.
Proof.
  intros He Hp.
  destruct He; unfold parties_ok; cbn [users transactions];
    rewrite ?update_first_ids by reflexivity; try assumption.
  - intros t Ht. destruct (Hp t Ht) as [Hfrom Hto].
    rewrite map_app, !in_app_iff. tauto.
  - intros t Ht. apply in_app_iff in Ht. destruct Ht as [Ht|[<-|[]]].
    + now apply Hp.
    + cbn. split; [now left|]. eapply find_by_id_ids; eassumption.
  - intros t Ht. apply in_app_iff in Ht. destruct Ht as [Ht|[<-|[]]].
    + now apply Hp.
    + cbn. split; [right|]; eapply find_by_id_ids; eassumption.
Qed.

Lemma in_update_first_by_id i f l d' :
  (forall d, u_id (f d) = u_id d) ->
  NoDup (map u_id l) ->
  In d' (update_first (by_id i) f l) ->
  exists d, In d l /\ d' = if String.eqb (u_id d) i then f d else d.
Proof.
  intros Hf Hnd Hin. rewrite update_first_map in Hin by assumption.
  apply in_map_iff in Hin. destruct Hin as (d & Hd & Hin).
  exists d. split; [assumption | now symmetry].
Qed.

Lemma find_by_id_eq l i d d0 :
  NoDup (map u_id l) ->
  find (by_id i) l = Some d -> In d0 l -> u_id d0 = i -> d0 = d.
Proof.
  intros Hnd Hd Hin Hid. apply (find_by_id_In _ _ Hnd) in Hin.
  rewrite Hid in Hin. congruence.
Qed.

(** The balance a request writes is the balance the log, one record
    longer, replays to. *)
Ltac ledger_step H :=
  rewrite replay_app; unfold apply_record; cbn [to_user from_user amount];
  repeat match goal with
         | |- context [String.eqb ?a ?b] =>
             destruct (String.eqb_spec a b); try congruence
         end;
  cbv iota; now rewrite <- H.

Lemma effect_ledger db r db' :
  effect db r db' -> uuid_fresh r db ->
  ids_ok db -> parties_ok db -> ledger_ok db -> ledger_ok db'.
Proof.
  intros He Hf [Hnd Hsys] Hp Hl.
  destruct He as [ r | user_data uuid4 sha utcnow Hemail
                 | user_id a uuid4 utcnow d Hd Ha
                 | user_id nfc d Hd Hfree
                 | user_id payment_data uuid4 utcnow sender recipient
                           Hs Hr Ha Hb Hne ];
    unfold ledger_ok; cbn [users transactions]; intros d' Hin.
  - now apply Hl.
  - (* register *)
    apply in_app_iff in Hin. destruct Hin as [Hin|[<-|[]]]; [now apply Hl|].
    cbn [uuid_fresh] in Hf. destruct Hf as [Hsent Hnew].
    cbn [u_balance u_id]. split; [reflexivity|].
    symmetry. apply replay_stranger.
    intros t Ht. destruct (Hp t Ht) as [[Hfrom|Hfrom] Hto];
      split; congruence.
  - (* recharge *)
    apply in_update_first_by_id in Hin; [|reflexivity|assumption].
    destruct Hin as (d0 & Hin0 & ->).
    destruct (Hl d0 Hin0) as [Hpos Hsum].
    assert (Hnsys : "system" <> u_id d0)
      by (intro E; apply Hsys; rewrite E; now apply in_map).
    destruct (String.eqb_spec (u_id d0) user_id) as [E|E].
    + assert (d0 = d) by (eapply find_by_id_eq; eassumption). subst d0.
      cbn [u_balance u_id set_balance]. split; [now apply add_nonneg|].
      ledger_step Hsum.
    + split; [assumption|]. ledger_step Hsum.
  - (* register-nfc *)
    apply in_update_first_by_id in Hin; [|reflexivity|assumption].
    destruct Hin as (d0 & Hin0 & ->).
    destruct (Hl d0 Hin0) as [Hpos Hsum].
    destruct (String.eqb (u_id d0) user_id); cbn [u_balance u_id set_nfc_id];
      now split.
  - (* pay *)
    apply in_update_first_by_id in Hin;
      [|reflexivity|now rewrite update_first_ids].
    destruct Hin as (d1 & Hin1 & ->).
    apply in_update_first_by_id in Hin1; [|reflexivity|assumption].
    destruct Hin1 as (d0 & Hin0 & ->).
    destruct (Hl d0 Hin0) as [Hpos Hsum].
    destruct (String.eqb_spec (u_id d0) user_id) as [E|E].
    + assert (d0 = sender) by (eapply find_by_id_eq; eassumption). subst d0.
      cbn [u_id set_balance].
      destruct (String.eqb_spec (u_id sender) (p_to_user payment_data));
        [congruence|].
      cbn [u_balance u_id set_balance]. split; [now apply sub_nonneg|].
      ledger_step Hsum.
    + destruct (String.eqb_spec (u_id d0) (p_to_user payment_data)) as [E1|E1].
      * assert (d0 = recipient) by (eapply find_by_id_eq; eassumption).
        subst d0. cbn [u_balance u_id set_balance].
        split; [now apply add_nonneg|].
        ledger_step Hsum.
      * split; [assumption|]. ledger_step Hsum.
Qed.

Lemma by_nfc_id_true n d : by_nfc_id n d = true <-> u_nfc_id d = Some n.
Proof.
  unfold by_nfc_id. destruct (u_nfc_id d) as [n'|].
  - rewrite String.eqb_eq. split; congruence.
  - split; discriminate.
Qed.

Lemma find_holder n l d :
  In d l -> u_nfc_id d = Some n ->
  exists e, find (by_nfc_id n) l = Some e /\ In e l /\ u_nfc_id e = Some n.
Proof.
  intros Hin Hn. destruct (find (by_nfc_id n) l) as [e|] eqn:E.
  - exists e. apply find_some in E. destruct E as [He Hp].
    repeat split; [assumption | now apply by_nfc_id_true].
  - exfalso. apply (find_none _ _ E) in Hin.
    apply by_nfc_id_true in Hn. congruence.
Qed.

Lemma nfc_unique_set_balance i b l :
  NoDup (map u_id l) ->
  nfc_unique l -> nfc_unique (update_first (by_id i) (set_balance b) l).
Proof.
  intros Hnd Hu d1' d2' n H1 H2 Hn1 Hn2.
  apply in_update_first_by_id in H1; [|reflexivity|assumption].
  apply in_update_first_by_id in H2; [|reflexivity|assumption].
  destruct H1 as (d1 & Hd1 & ->). destruct H2 as (d2 & Hd2 & ->).
  destruct (String.eqb (u_id d1) i), (String.eqb (u_id d2) i);
    cbn [u_id u_nfc_id set_balance] in *; now apply (Hu d1 d2 n).
Qed.

Lemma effect_nfc db r db' :
  effect db r db' -> ids_ok db ->
  nfc_unique (users db) -> nfc_unique (users db').
Proof.
  intros He [Hnd _] Hu.
  destruct He as [ r | user_data uuid4 sha utcnow Hemail
                 | user_id a uuid4 utcnow d Hd Ha
                 | user_id nfc d Hd Hfree
                 | user_id payment_data uuid4 utcnow sender recipient
                           Hs Hr Ha Hb Hne ];
    cbn [users].
  - assumption.
  - intros d1 d2 n H1 H2 Hn1 Hn2.
    apply in_app_iff in H1. apply in_app_iff in H2.
    destruct H1 as [H1|[<-|[]]]; [|discriminate Hn1].
    destruct H2 as [H2|[<-|[]]]; [|discriminate Hn2].
    now apply (Hu d1 d2 n).
  - now apply nfc_unique_set_balance.
  - intros d1' d2' n H1 H2 Hn1 Hn2.
    apply in_update_first_by_id in H1; [|reflexivity|assumption].
    apply in_update_first_by_id in H2; [|reflexivity|assumption].
    destruct H1 as (d1 & Hd1 & ->). destruct H2 as (d2 & Hd2 & ->).
    destruct (String.eqb_spec (u_id d1) user_id) as [E1|E1],
             (String.eqb_spec (u_id d2) user_id) as [E2|E2];
      cbn [u_id u_nfc_id set_nfc_id] in *.
    + congruence.
    + exfalso. apply E2.
      destruct (find_holder n (users db) d2 Hd2 Hn2) as (e & He & Hin & Hne).
      assert (n = nfc) by congruence. subst n.
      rewrite (Hu d2 e nfc Hd2 Hin Hn2 Hne). now apply Hfree.
    + exfalso. apply E1.
      destruct (find_holder n (users db) d1 Hd1 Hn1) as (e & He & Hin & Hne).
      assert (n = nfc) by congruence. subst n.
      rewrite (Hu d1 e nfc Hd1 Hin Hn1 Hne). now apply Hfree.
    + now apply (Hu d1 d2 n).
  - apply nfc_unique_set_balance; [now rewrite update_first_ids|].
    now apply nfc_unique_set_balance.
Qed.

Lemma consistent_empty : consistent empty_db.
Proof.
  split.
  - split; [constructor | intros []].
  - intros t [].
  - intros d [].
  - intros d1 d2 n [].
Qed.

Lemma consistent_serve db r :
  consistent db -> uuid_fresh r db -> consistent (serve r db).
Proof.
  intros [Hi Hp Hl Hn] Hf. pose proof (serve_effect r db) as He. split.
  - eapply effect_ids; eassumption.
  - eapply effect_parties; eassumption.
  - eapply effect_ledger; eassumption.
  - eapply effect_nfc; eassumption.
Qed.

Lemma reachable_consistent db : reachable db -> consistent db.
Proof.
  induction 1 as [|db r _ IH Hf].
  - exact consistent_empty.
  - now apply consistent_serve.
Qed.

Lemma run_reachable rs :
  forall db, reachable db -> uuids_fresh rs db -> reachable (run rs db).
Proof.
  induction rs as [|r rs IH]; intros db Hr Hf; [exact Hr|].
  destruct Hf as [Hf Hfs]. cbn [run fold_left].
  apply IH; [now apply reach_serve | assumption].
Qed.



Example scenario_result :
  run scenario empty_db
  = mkDatabase
      [ mkUserDoc "A" "ana@x.io" "Ana" "h1" 90 None 0;
        mkUserDoc "B" "bia@x.io" "Bia" "h2" 10 None 2 ]
      [ mkTransaction "t1" "system" "A" 100 "Recarga de saldo" 1 "recharge";
        mkTransaction "t2" "A" "B" 10 "almoço" 3 "transfer" ].
Proof. vm_compute. reflexivity. Qed.

Lemma scenario_fresh : uuids_fresh scenario empty_db.
Proof.
  cbn [uuids_fresh scenario uuid_fresh]. repeat split; try discriminate.
  - intros [].
  - vm_compute. intros [H|[]]. discriminate H.
Qed.


(** The same on amounts that are rounded: after recharges of 0.1 and 0.2
    the balance is the double next above 0.3, and it is what the log replays
    to. *)
Example two_recharges_result :
  users (run two_recharges empty_db)
  = [mkUserDoc "A" "ana@x.io" "Ana" "h1" 0x1.3333333333334p-2 None 0]
  /\ replay "A" (transactions (run two_recharges empty_db))
     = 0x1.3333333333334p-2.
Proof. split; vm_compute; reflexivity. Qed.

(** ** NFC tags *)

Lemma set_nfc_id_same n d : u_nfc_id d = Some n -> set_nfc_id n d = d.
Proof. destruct d; cbn. now intros ->. Qed.

(** C7: in a database the server can reach, and for a caller the token
    resolves: registering a tag that a user with another identifier holds
    ends in a 400 error and leaves the database, hence every user, as it
    was; registering the tag the caller already holds succeeds (and changes
    nothing); and after the request, whatever its outcome, no two users with
    different identifiers hold the same tag. *)
Theorem nfc_tags_stay_unique :
  forall db user_id nfc caller,
    reachable db ->
    find (by_id user_id) (users db) = Some caller ->
    let result := api_register_nfc user_id (mkNFCRegister nfc) db in
    ((exists other, In other (users db) /\ u_id other <> user_id
                    /\ u_nfc_id other = Some nfc) ->
     exists e, result = (inl e, db) /\ status_of e = 400%Z) /\
    (u_nfc_id caller = Some nfc -> result = (inr (mkNfcResponse nfc), db)) /\
    nfc_unique (users (snd result)).
Proof.
  intros db user_id nfc caller Hreach Hc result. subst result.
  pose proof (reachable_consistent _ Hreach) as [[Hnd Hsys] Hp Hl Hu].
  split_all.
  - intros (other & Hin & Hne & Hn).
    destruct (find_holder nfc (users db) other Hin Hn) as (e & He & Hine & Hne').
    exists NfcInUse. split; [|reflexivity].
    apply register_nfc_in_use with (d := caller) (e := e); try assumption.
    rewrite (Hu e other nfc Hine Hin Hne' Hn). assumption.
  - intro Hn. destruct (find_by_id_Some _ _ _ Hc) as [Hinc Hidc].
    rewrite register_nfc_success with (d := caller); [|assumption|].
    + f_equal. rewrite update_first_fixed; [now destruct db|].
      intros x Hx Hpx. apply by_id_true in Hpx.
      assert (x = caller) by (eapply find_by_id_eq; eassumption). subst x.
      now apply set_nfc_id_same.
    + intros e He. apply find_some in He. destruct He as [Hine Hpe].
      apply by_nfc_id_true in Hpe.
      rewrite (Hu e caller nfc Hine Hinc Hpe Hn). assumption.
  - change (nfc_unique (users (serve (ReqRegisterNfc user_id (mkNFCRegister nfc)) db))).
    apply c_nfc. apply consistent_serve; [|exact I].
    now apply reachable_consistent.
Qed.

Lemma tagged_fresh : uuids_fresh tagged empty_db.
Proof.
  cbn [uuids_fresh tagged uuid_fresh]. repeat split; try discriminate.
  - intros [].
  - vm_compute. intros [H|[]]. discriminate H.
Qed.

Lemma nfc_tags_stay_unique_witness :
  let db := run tagged empty_db in
  (exists e, api_register_nfc "A" (mkNFCRegister "04:A2:19") db = (inl e, db)
             /\ status_of e = 400%Z)
  /\ api_register_nfc "B" (mkNFCRegister "04:A2:19") db = (inr (mkNfcResponse "04:A2:19"), db)
  /\ nfc_unique (users (snd (api_register_nfc "A" (mkNFCRegister "04:A2:19") db))).
Proof.
  pose proof (run_reachable tagged empty_db reach_empty tagged_fresh) as Hr.
  split; [|split].
  - destruct (nfc_tags_stay_unique (run tagged empty_db) "A" "04:A2:19"
                (mkUserDoc "A" "ana@x.io" "Ana" "h1" 0 None 0) Hr eq_refl)
      as (H & _ & _).
    apply H.
    exists (mkUserDoc "B" "bia@x.io" "Bia" "h2" 0 (Some "04:A2:19") 2).
    split; [right; left; reflexivity|]. split; [discriminate|reflexivity].
  - destruct (nfc_tags_stay_unique (run tagged empty_db) "B" "04:A2:19"
                (mkUserDoc "B" "bia@x.io" "Bia" "h2" 0 (Some "04:A2:19") 2)
                Hr eq_refl)
      as (_ & H & _).
    apply H. reflexivity.
  - destruct (nfc_tags_stay_unique (run tagged empty_db) "A" "04:A2:19"
                (mkUserDoc "A" "ana@x.io" "Ana" "h1" 0 None 0) Hr eq_refl)
      as (_ & _ & H).
    exact H.
Defined.

(** ** Transaction history *)





Lemma in_firstn {A} n (l : list A) x : In x (firstn n l) -> In x l.
Proof.
  intro H. rewrite <- (firstn_skipn n l). apply in_app_iff. now left.
Qed.





Example history_of_the_scenario :
  fst (get_transactions (mkUser "A" "ana@x.io" "Ana" 90 None)
                        (run scenario empty_db))
  = inr [ mkHistoryEntry
            (mkTransaction "t2" "A" "B" 10 "almoço" 3 "transfer") "Ana" "Bia";
          mkHistoryEntry
            (mkTransaction "t1" "system" "A" 100 "Recarga de saldo" 1
                           "recharge")
            "Sistema" "Ana" ].
Proof. vm_compute. reflexivity. Qed.


(** ** User search *)

Lemma prefixb_spec q : forall s,
  prefixb q s = true <-> exists post, s = q ++ post.
Proof.
  induction q as [|a q IH]; intros s; simpl.
  - split; [intros _; now exists s | reflexivity].
  - destruct s as [|b s].
    + split; [discriminate | intros [post H]; discriminate H].
    + rewrite andb_true_iff, Ascii.eqb_eq, IH. split.
      * intros [-> [post ->]]. now exists post.
      * intros [post H]. injection H as -> ->. split; [reflexivity|].
        now exists post.
Qed.

Lemma containsb_spec s q : containsb s q = true <-> contains s q.
Proof.
  unfold contains. split.
  - induction s as [|c s IH]; simpl; rewrite orb_true_iff.
    + intros [H|H]; [|discriminate H].
      apply prefixb_spec in H. destruct H as [post ->]. now exists "", post.
    + intros [H|H].
      * apply prefixb_spec in H. destruct H as [post ->]. now exists "", post.
      * destruct (IH H) as (pre & post & ->). now exists (String c pre), post.
  - intros (pre & post & ->). induction pre as [|c pre IH]; simpl.
    + destruct (q ++ post) eqn:E; simpl; rewrite <- E;
        (replace (prefixb q (q ++ post)) with true;
         [reflexivity | symmetry; apply prefixb_spec; now exists post]).
    + rewrite IH. apply orb_true_r.
Qed.

Lemma regex_compile_plain q :
  plain q = true -> regex_compile q = Some (literals q).
Proof.
  induction q as [|c q IH]; simpl; [reflexivity|].
  rewrite andb_true_iff. intros [Hc Hq]. rewrite (IH Hq).
  unfold plain_char in Hc. apply andb_true_iff in Hc. destruct Hc as [H1 H2].
  apply negb_true_iff in H1, H2. now rewrite H1, H2.
Qed.

Lemma match_here_literals q : forall s,
  match_here (literals q) s = prefixb (lower_str q) (lower_str s).
Proof.
  induction q as [|a q IH]; intros s; simpl.
  - now destruct s.
  - destruct s as [|b s]; simpl; [reflexivity|]. now rewrite IH.
Qed.

Lemma regex_search_literals q s :
  regex_search (literals q) s = containsb (lower_str s) (lower_str q).
Proof.
  induction s as [|b s IH]; simpl.
  - now rewrite match_here_literals.
  - now rewrite match_here_literals, IH.
Qed.

Section Search.
Variables (db : Database) (q : string) (current_user : User).

Lemma search_short :
  (String.length q < 2)%nat -> search_users q current_user db = (inr (Some []), db).
Proof.
  intro H. apply Nat.ltb_lt in H. unfold search_users. now rewrite H.
Qed.

Lemma search_reads_only out db' :
  search_users q current_user db = (out, db') -> db' = db.
Proof.
  unfold search_users, bind, users_find_10, ret.
  destruct (String.length q <? 2)%nat; [congruence|].
  destruct (regex_compile q); congruence.
Qed.

(** Whatever the pattern, the cap and the exclusion of the caller hold. *)
Lemma search_users_eq :
  search_users q current_user db
  = (inr (if (String.length q <? 2)%nat then Some []
          else option_map
                 (fun pat =>
                    map (fun user => mkSearchHit (u_id user) (u_name user)
                                                 (u_email user))
                        (firstn 10 (filter (search_filter pat current_user)
                                           (users db))))
                 (regex_compile q)),
     db).
Proof.
  unfold search_users, bind, users_find_10, ret.
  destruct (String.length q <? 2)%nat; [reflexivity|].
  destruct (regex_compile q); reflexivity.
Qed.

(** Whatever the pattern, the cap and the exclusion of the caller hold. *)
Lemma search_capped hits :
  fst (search_users q current_user db) = inr (Some hits) ->
  (List.length hits <= 10)%nat
  /\ forall h, In h hits -> s_id h <> id current_user.
Proof.
  rewrite search_users_eq. cbn [fst].
  destruct (String.length q <? 2)%nat.
  - intro H. injection H as <-. split; [cbn; lia | intros h []].
  - destruct (regex_compile q) as [pat|]; cbn [option_map]; [|discriminate].
    set (found := firstn 10 _). intro H. injection H as <-. split.
    + rewrite length_map. apply firstn_le_length.
    + intros h Hh. apply in_map_iff in Hh. destruct Hh as (d & <- & Hd).
      apply in_firstn, filter_In in Hd. destruct Hd as [_ Hd].
      unfold search_filter in Hd. apply andb_true_iff in Hd.
      destruct Hd as [Hd _]. apply negb_true_iff in Hd.
      cbn [s_id]. now apply String.eqb_neq.
Qed.

(** A plain query finds only users whose name or email contains it,
    whatever the case of the letters. *)
Lemma search_plain_contains :
  (2 <= String.length q)%nat ->
  plain q = true ->
  exists hits,
    search_users q current_user db = (inr (Some hits), db)
    /\ forall h, In h hits ->
         contains_ci (s_name h) q \/ contains_ci (s_email h) q.
Proof.
  intros Hlen Hplain. unfold search_users.
  assert (E : (String.length q <? 2)%nat = false) by now apply Nat.ltb_ge.
  rewrite E, (regex_compile_plain _ Hplain).
  eexists. split; [reflexivity|].
  intros h Hh. apply in_map_iff in Hh. destruct Hh as (d & <- & Hd).
  apply in_firstn, filter_In in Hd. destruct Hd as [_ Hd].
  unfold search_filter in Hd. apply andb_true_iff in Hd.
  destruct Hd as [_ Hd]. apply orb_true_iff in Hd.
  rewrite !regex_search_literals, !containsb_spec in Hd. exact Hd.
Qed.
End Search.

(** C9 at the query "b.b": the server reads the query as a pattern, in
    which the dot stands for any character, and returns the user named
    "Bob", though neither that name nor the email "bob@x.io" contains the
    three characters of the query. *)
Theorem search_reads_query_as_pattern :
  search_users "b.b" (User_of_doc ana) directory
  = (inr (Some [mkSearchHit "B" "Bob" "bob@x.io"]), directory)
  /\ ~ contains_ci "Bob" "b.b"
  /\ ~ contains_ci "bob@x.io" "b.b".
Proof.
  split; [reflexivity|].
  split; intro H; apply containsb_spec in H; vm_compute in H; discriminate H.
Qed.

(** ** Concurrent payments *)

(** The task, resumed five times with nothing in between, is the handler:
    same outcome, same database. *)
Lemma run_alone_api_pay c db :
  run_alone 5 c AtCurrentUser db
  = (Done (fst (api_pay (c_user_id c) (c_payment_data c) (c_uuid4 c)
                        (c_utcnow c) db)),
     snd (api_pay (c_user_id c) (c_payment_data c) (c_uuid4 c)
                  (c_utcnow c) db)).
Proof.
  destruct c as [user_id payment_data uuid4 utcnow]. cbn [c_user_id
    c_payment_data c_uuid4 c_utcnow].
  destruct (find (by_id user_id) (users db)) as [sender|] eqn:Hs.
  - pose proof (find_by_id_Some _ _ _ Hs) as [_ Hid].
    destruct (pay_cases db user_id payment_data sender Hs)
      as [Ha|Ha Hb|Ha Hb Hr|Ha Hb Hself|rcp Ha Hb Hr Hne].
    + rewrite pay_invalid_amount with (sender := sender) by assumption.
      cbn [run_alone resume c_user_id c_payment_data]. now rewrite Hs, Ha.
    + rewrite pay_insufficient with (sender := sender) by assumption.
      cbn [run_alone resume c_user_id c_payment_data].
      rewrite Hs, Ha. cbn [balance User_of_doc]. now rewrite Hb.
    + rewrite pay_recipient_not_found with (sender := sender) by assumption.
      cbn [run_alone resume c_user_id c_payment_data].
      rewrite Hs, Ha. cbn [balance User_of_doc]. rewrite Hb.
      cbn [run_alone resume c_user_id c_payment_data]. now rewrite Hr.
    + rewrite pay_self_transfer with (sender := sender) by assumption.
      cbn [run_alone resume c_user_id c_payment_data].
      rewrite Hs, Ha. cbn [balance User_of_doc]. rewrite Hb.
      cbn [run_alone resume c_user_id c_payment_data id User_of_doc].
      rewrite <- Hself, Hs, Hid, String.eqb_refl. reflexivity.
    + rewrite pay_success with (sender := sender) (recipient := rcp)
        by assumption.
      cbn [run_alone resume c_user_id c_payment_data].
      rewrite Hs, Ha. cbn [balance User_of_doc]. rewrite Hb.
      cbn [run_alone resume c_user_id c_payment_data id User_of_doc].
      rewrite Hr, Hid. apply String.eqb_neq in Hne. rewrite Hne.
      cbn [run_alone resume c_user_id c_payment_data c_uuid4 c_utcnow
           id balance User_of_doc users transactions fst snd t_id].
      now rewrite Hid.
  - rewrite pay_unauthorized by assumption.
    cbn [run_alone resume c_user_id]. now rewrite Hs.
Qed.

(** One call after the other: the second is refused. *)
Example serial_pays_one_refused :
  let s := run_schedule [0; 0; 0; 0; 0; 1; 1; 1; 1; 1]%nat
                        (start two_users racing) in
  outcomes s = [ Done (inr (mkPayResponse "t1" 40 "Bia"));
                 Done (inl InsufficientFunds) ]
  /\ map u_balance (users (database s)) = [40; 60].
Proof. vm_compute. split; reflexivity. Qed.

(** C1 at the scenario of the specification, with the second call resumed
    between the first call's read of the balance and its debit: both calls
    read 100, both pass the balance check, both succeed and answer with a
    new balance of 40; A is left with 40 after two payments of 60 and B
    holds 120. *)
Theorem concurrent_pays_both_succeed :
  let s := run_schedule [0; 1; 0; 0; 0; 0; 1; 1; 1; 1]%nat
                        (start two_users racing) in
  outcomes s = [ Done (inr (mkPayResponse "t1" 40 "Bia"));
                 Done (inr (mkPayResponse "t2" 40 "Bia")) ]
  /\ map u_balance (users (database s)) = [40; 120]
  /\ map t_id (transactions (database s)) = ["t1"; "t2"].
Proof. vm_compute. repeat split; reflexivity. Qed.

Lemma run_schedule_cons i schedule s :
  run_schedule (i :: schedule) s
  = run_schedule schedule
      (let (ts, db) := resume_nth i (tasks s) (database s) in mkServer db ts).
Proof. cbn [run_schedule]. now destruct (resume_nth i (tasks s) (database s)). Qed.

Ltac resume_next :=
  rewrite run_schedule_cons;
  cbn [start map resume_nth tasks database resume users transactions
       c_user_id c_payment_data c_uuid4 c_utcnow balance id User_of_doc].

(** The same interleaving for any balance and any amount the balance
    covers once: both calls succeed. *)
Lemma race_both_succeed db user_id payment_data u1 n1 u2 n2 sender rcp :
  find (by_id user_id) (users db) = Some sender ->
  find (by_id (p_to_user payment_data)) (users db) = Some rcp ->
  (0 <? p_amount payment_data) = true ->
  (p_amount payment_data <=? u_balance sender) = true ->
  user_id <> p_to_user payment_data ->
  let a := p_amount payment_data in
  let s := run_schedule [0; 1; 0; 0; 0; 0; 1; 1; 1; 1]%nat
             (start db [mkPayCall user_id payment_data u1 n1;
                        mkPayCall user_id payment_data u2 n2]) in
  outcomes s
  = [ Done (inr (mkPayResponse u1 (u_balance sender - a) (u_name rcp)));
      Done (inr (mkPayResponse u2 (u_balance sender - a) (u_name rcp))) ]
  /\ balance_of (database s) user_id = u_balance sender - a
  /\ balance_of (database s) (p_to_user payment_data)
     = u_balance rcp + a + a.
Proof.
  intros Hs Hr Ha Hb Hne a s. subst a s.
  pose proof (find_by_id_Some _ _ _ Hs) as [_ Hid]. subst user_id.
  apply lt_not_le in Ha. apply le_not_lt in Hb.
  assert (Hne' : String.eqb (u_id sender) (p_to_user payment_data) = false)
    by now apply String.eqb_neq.
  set (f1 := set_balance (u_balance sender - p_amount payment_data)).
  set (f2 := set_balance (u_balance rcp + p_amount payment_data)).
  assert (Hr1 : find (by_id (p_to_user payment_data))
                     (update_first (by_id (p_to_user payment_data)) f2
                        (update_first (by_id (u_id sender)) f1 (users db)))
                = Some (f2 rcp)).
  { rewrite find_update_first_same by reflexivity.
    rewrite find_update_first_other by auto.
    now rewrite Hr. }
  resume_next. rewrite Hs, Ha, Hb.
  resume_next. rewrite Hs, Ha, Hb.
  resume_next. rewrite Hr, Hne'.
  resume_next. resume_next. resume_next.
  resume_next. fold f1 f2. rewrite Hr1, Hne'.
  resume_next. resume_next. resume_next.
  cbn [run_schedule outcomes tasks database map snd t_id u_name u_balance
       f2 set_balance].
  split; [reflexivity|]. split.
  - unfold balance_of. cbn [users].
    rewrite find_update_first_other by auto.
    rewrite find_update_first_same by reflexivity.
    rewrite find_update_first_other by auto.
    rewrite find_update_first_same by reflexivity.
    now rewrite Hs.
  - unfold balance_of. cbn [users].
    rewrite find_update_first_same by reflexivity.
    rewrite find_update_first_other by auto.
    now rewrite Hr1.
Qed.

(** Under no schedule of the two calls, and at no point of it, does a
    balance fall below zero: a debit writes the balance the call has read
    less the amount, and the call has checked that it is not negative. *)
Example racing_never_negative :
  forallb (fun sch =>
             forallb (fun d => 0 <=? u_balance d)
                     (users (database (run_schedule sch
                                         (start two_users racing)))))
          (schedules 10)
  = true.
Proof. vm_compute. reflexivity. Qed.

(** * Further properties of the handlers *)

(** ** Registration and login *)

Lemma map_update_first {A B} (g : A -> B) (p : A -> bool) (f : A -> A) l :
  (forall x, g (f x) = g x) -> map g (update_first p f l) = map g l.
Proof.
  intro Hg. induction l as [|x l IH]; simpl; [reflexivity|].
  destruct (p x); simpl; [now rewrite Hg | now rewrite IH].
Qed.

Lemma find_app_none {A} (p : A -> bool) l x :
  find p l = None -> find p (l ++ [x]) = if p x then Some x else None.
Proof.
  induction l as [|y l IH]; simpl; [reflexivity|].
  destruct (p y); [discriminate | exact IH].
Qed.

Lemma find_app_some {A} (p : A -> bool) l l' y :
  find p l = Some y -> find p (l ++ l') = Some y.
Proof.
  induction l as [|z l IH]; simpl; [discriminate|].
  destruct (p z); [trivial | exact IH].
Qed.

Lemma by_email_true e d : by_email e d = true <-> u_email d = e.
Proof. unfold by_email. apply String.eqb_eq. Qed.

Lemma find_by_email_none e l :
  find (by_email e) l = None <-> ~ In e (map u_email l).
Proof.
  split.
  - intros H Hin. apply in_map_iff in Hin. destruct Hin as (d & Hd & Hin).
    apply (find_none _ _ H) in Hin. apply by_email_true in Hd. congruence.
  - intro H. destruct (find (by_email e) l) as [d|] eqn:E; [|reflexivity].
    exfalso. apply H. apply find_some in E. destruct E as [Hin Hp].
    apply by_email_true in Hp. subst e. now apply in_map.
Qed.

(** X1: [POST /api/register] refuses an email some user already has with
    the 400 error "Email já está em uso" and writes nothing; with any other
    email it appends one user, with a zero balance and no tag, leaves the
    users already there and the log as they were, and answers with that
    user. *)
Theorem register_outcome :
  forall db user_data uuid4 sha256_hex utcnow,
    let result := register user_data uuid4 sha256_hex utcnow db in
    (In (uc_email user_data) (map u_email (users db)) ->
     result = (inl (HTTPError 400 "Email já está em uso"), db)) /\
    (~ In (uc_email user_data) (map u_email (users db)) ->
     result
     = (inr (mkRegisterResponse
               (mkUser uuid4 (uc_email user_data) (uc_name user_data) 0 None)),
        mkDatabase
          (users db
           ++ [mkUserDoc uuid4 (uc_email user_data) (uc_name user_data)
                         sha256_hex 0 None utcnow])
          (transactions db))).
Proof.
  intros db user_data uuid4 sha256_hex utcnow result. subst result. split.
  - intro Hin.
    destruct (find (by_email (uc_email user_data)) (users db)) as [d|] eqn:E.
    + now apply register_email_in_use with d.
    + apply find_by_email_none in E. contradiction.
  - intro Hout. apply find_by_email_none in Hout.
    unfold register, bind, users_find_one. now rewrite Hout.
Qed.

(** X2: in every database the server reaches by serving requests one after
    the other, no two users have the same email. *)
Theorem emails_stay_unique :
  forall rs,
    uuids_fresh rs empty_db ->
    NoDup (map u_email (users (run rs empty_db))).
Proof.
  intros rs Hf.
  pose proof (run_reachable rs empty_db reach_empty Hf) as Hr.
  clear Hf. induction Hr as [|db r Hr IH Hf]; [constructor|].
  destruct (serve_effect r db); cbn [users];
    rewrite ?map_update_first by reflexivity; try assumption.
  rewrite map_app. cbn [map u_email].
  apply Permutation_NoDup
    with (l := uc_email user_data :: map u_email (users db));
    [apply Permutation_cons_append|].
  constructor; [|assumption]. now apply find_by_email_none.
Qed.

Lemma emails_stay_unique_witness :
  NoDup (map u_email (users (run scenario empty_db))).
Proof. apply (emails_stay_unique scenario). exact scenario_fresh. Defined.

(** X3: a user who has just registered can log in: after a registration
    that is accepted, [POST /api/login] with the same email and password
    succeeds and answers with the new user, zero balance and no tag. *)
Theorem login_after_register :
  forall sha256_hexdigest db user_data uuid4 utcnow,
    ~ In (uc_email user_data) (map u_email (users db)) ->
    let db' := snd (api_register sha256_hexdigest user_data uuid4 utcnow db) in
    login sha256_hexdigest
          (mkUserLogin (uc_email user_data) (uc_password user_data)) db'
    = (inr (mkLoginResponse
              (mkUser uuid4 (uc_email user_data) (uc_name user_data) 0 None)),
       db').
Proof.
  intros H db user_data uuid4 utcnow Hfree db'. subst db'.
  apply find_by_email_none in Hfree.
  unfold api_register. rewrite register_success by assumption.
  unfold login, bind, users_find_one. cbn [users ul_email ul_password].
  rewrite (find_app_none _ _ _ Hfree).
  unfold by_email at 1. cbn [u_email]. rewrite String.eqb_refl.
  unfold verify_password, hash_password. cbn [u_password].
  rewrite String.eqb_refl. reflexivity.
Qed.

Lemma login_after_register_witness :
  let user_data := mkUserCreate "caio@x.io" "Caio" "segredo" in
  let db' := snd (api_register (fun s => s) user_data "C" 9 two_users) in
  login (fun s => s) (mkUserLogin "caio@x.io" "segredo") db'
  = (inr (mkLoginResponse (mkUser "C" "caio@x.io" "Caio" 0 None)), db').
Proof.
  apply (login_after_register (fun s => s) two_users
           (mkUserCreate "caio@x.io" "Caio" "segredo") "C" 9%Z).
  cbn. intros [H|[H|[]]]; discriminate H.
Defined.

(** X4: [POST /api/login] never writes; it succeeds exactly when the first
    user with the email stores the digest of the password given, and then
    answers with that user; in every other case, unknown email or wrong
    password alike, it ends in the one 401 error
    "Email ou senha inválidos". *)
Theorem login_outcome :
  forall sha256_hexdigest db login_data,
    let result := login sha256_hexdigest login_data db in
    snd result = db /\
    (forall resp,
       fst result = inr resp <->
       exists user,
         find (by_email (ul_email login_data)) (users db) = Some user
         /\ u_password user = sha256_hexdigest (ul_password login_data)
         /\ resp = mkLoginResponse (User_of_doc user)) /\
    ((forall resp, fst result <> inr resp) ->
     fst result = inl (HTTPError 401 "Email ou senha inválidos")).
Proof.
  intros H db login_data result. subst result.
  unfold login, bind, users_find_one, verify_password, hash_password.
  destruct (find (by_email (ul_email login_data)) (users db)) as [user|] eqn:E.
  - destruct (String.eqb_spec (H (ul_password login_data)) (u_password user))
      as [Heq|Hne]; cbn [negb fst snd raise ret]; split_all; try reflexivity.
    + intro resp. split.
      * intro Hr. injection Hr as <-. exists user. now split_all.
      * intros (u & Hu & _ & ->). congruence.
    + intro Hnone. exfalso. now apply (Hnone (mkLoginResponse (User_of_doc user))).
    + intro resp. split; [discriminate|].
      intros (u & Hu & Hp & _). exfalso. apply Hne.
      injection Hu as <-. now symmetry.
  - cbn [fst snd raise]. split_all; try reflexivity.
    intro resp. split; [discriminate|]. intros (u & Hu & _). discriminate Hu.
Qed.

(** ** Lookup by NFC tag *)

Lemma find_all_false {A} (p : A -> bool) l :
  (forall x, In x l -> p x = false) -> find p l = None.
Proof.
  induction l as [|x l IH]; simpl; intro H; [reflexivity|].
  rewrite (H x) by now left. apply IH. intros y Hy. apply H. now right.
Qed.

Lemma same_id_same_doc l a b :
  NoDup (map u_id l) -> In a l -> In b l -> u_id a = u_id b -> a = b.
Proof.
  intros Hnd Ha Hb Hid. eapply find_by_id_eq; try eassumption.
  now apply find_by_id_In.
Qed.

(** What an accepted tag registration has written. *)
Lemma register_nfc_accepted db user_id nfc caller resp db' :
  find (by_id user_id) (users db) = Some caller ->
  api_register_nfc user_id (mkNFCRegister nfc) db = (inr resp, db') ->
  db' = mkDatabase (update_first (by_id user_id) (set_nfc_id nfc) (users db))
                   (transactions db).
Proof.
  intros Hc Hres.
  destruct (find (by_nfc_id nfc) (users db)) as [e|] eqn:He.
  - destruct (string_dec (u_id e) user_id) as [Heq|Hne].
    + rewrite register_nfc_success with (d := caller) in Hres;
        [congruence | assumption | intros e' He'; congruence].
    + rewrite register_nfc_in_use with (d := caller) (e := e) in Hres
        by assumption.
      discriminate Hres.
  - rewrite register_nfc_success with (d := caller) in Hres;
      [congruence | assumption | intros e' He'; congruence].
Qed.

(** X5: [GET /api/pay-by-nfc] never writes; it ends in the 404 error
    "Usuário NFC não encontrado" exactly when no user holds the tag, and
    otherwise answers with the identifier and name of a user who holds
    it. *)
Theorem nfc_lookup_outcome :
  forall db nfc,
    let result := get_user_by_nfc nfc db in
    snd result = db /\
    (fst result = inl (HTTPError 404 "Usuário NFC não encontrado")
     <-> forall d, In d (users db) -> u_nfc_id d <> Some nfc) /\
    (forall r, fst result = inr r ->
       nl_nfc_id r = Some nfc /\
       exists d, In d (users db) /\ u_nfc_id d = Some nfc
                 /\ u_id d = nl_user_id r /\ u_name d = nl_name r).
Proof.
  intros db nfc result. subst result.
  unfold get_user_by_nfc, bind, users_find_one.
  destruct (find (by_nfc_id nfc) (users db)) as [u|] eqn:E;
    cbn [fst snd raise ret].
  - apply find_some in E. destruct E as [Hin Hp]. apply by_nfc_id_true in Hp.
    split_all; [reflexivity| |].
    + split; [discriminate|]. intro H. exfalso. now apply (H u).
    + intros r Hr. injection Hr as <-. cbn. split; [assumption|].
      exists u. now split_all.
  - split_all; [reflexivity| |discriminate].
    split; [|reflexivity]. intros _ d Hd Hn.
    apply (find_none _ _ E) in Hd. apply by_nfc_id_true in Hn. congruence.
Qed.

(** X6: a tag leads to the user who registered it: in a reachable database,
    once a user's [POST /api/register-nfc] is accepted, the lookup of the
    tag answers with that user's identifier and name. *)
Theorem nfc_lookup_after_register :
  forall db user_id nfc caller resp db',
    reachable db ->
    find (by_id user_id) (users db) = Some caller ->
    api_register_nfc user_id (mkNFCRegister nfc) db = (inr resp, db') ->
    get_user_by_nfc nfc db'
    = (inr (mkNfcLookup user_id (u_name caller) (Some nfc)), db').
Proof.
  intros db user_id nfc caller resp db' Hreach Hc Hres.
  pose proof (register_nfc_accepted _ _ _ _ _ _ Hc Hres) as Hdb'.
  assert (Hcons : consistent db').
  { replace db' with (serve (ReqRegisterNfc user_id (mkNFCRegister nfc)) db)
      by (cbn [serve]; now rewrite Hres).
    apply consistent_serve; [now apply reachable_consistent | exact I]. }
  destruct Hcons as [[Hnd _] _ _ Hu].
  destruct (find_by_id_Some _ _ _ Hc) as [_ Hid].
  assert (Hnew : find (by_id user_id) (users db')
                 = Some (set_nfc_id nfc caller)).
  { subst db'. cbn [users]. rewrite find_update_first_same by reflexivity.
    now rewrite Hc. }
  destruct (find_by_id_Some _ _ _ Hnew) as [Hin _].
  destruct (find_holder nfc (users db') (set_nfc_id nfc caller) Hin eq_refl)
    as (e & He & Hine & Hne).
  assert (e = set_nfc_id nfc caller).
  { apply (same_id_same_doc (users db')); try assumption.
    now apply (Hu e (set_nfc_id nfc caller) nfc). }
  subst e. unfold get_user_by_nfc, bind, users_find_one. rewrite He.
  cbn. now rewrite Hid.
Qed.

Lemma nfc_lookup_after_register_witness :
  let db := run tagged empty_db in
  get_user_by_nfc "77:0C" (snd (api_register_nfc "A" (mkNFCRegister "77:0C") db))
  = (inr (mkNfcLookup "A" "Ana" (Some "77:0C")),
     snd (api_register_nfc "A" (mkNFCRegister "77:0C") db)).
Proof.
  apply (nfc_lookup_after_register (run tagged empty_db) "A" "77:0C"
           (mkUserDoc "A" "ana@x.io" "Ana" "h1" 0 None 0)
           (mkNfcResponse "77:0C")).
  - exact (run_reachable tagged empty_db reach_empty tagged_fresh).
  - reflexivity.
  - reflexivity.
Defined.

(** X7: a user holds one tag at a time: in a reachable database, when a
    user who holds a tag registers another one, the lookup of the old tag
    ends in the 404 error. *)
Theorem nfc_old_tag_released :
  forall db user_id old_nfc nfc caller resp db',
    reachable db ->
    find (by_id user_id) (users db) = Some caller ->
    u_nfc_id caller = Some old_nfc ->
    old_nfc <> nfc ->
    api_register_nfc user_id (mkNFCRegister nfc) db = (inr resp, db') ->
    get_user_by_nfc old_nfc db' = (inl NfcNotFound, db').
Proof.
  intros db user_id old_nfc nfc caller resp db' Hreach Hc Hold Hne Hres.
  pose proof (register_nfc_accepted _ _ _ _ _ _ Hc Hres) as Hdb'.
  destruct (reachable_consistent _ Hreach) as [[Hnd _] _ _ Hu].
  destruct (find_by_id_Some _ _ _ Hc) as [Hinc Hid].
  unfold get_user_by_nfc, bind, users_find_one.
  rewrite find_all_false; [reflexivity|].
  intros x Hx. subst db'. cbn [users] in Hx.
  apply in_update_first_by_id in Hx; [|reflexivity|assumption].
  destruct Hx as (d & Hd & ->).
  destruct (String.eqb_spec (u_id d) user_id) as [E|E].
  - unfold by_nfc_id. cbn [u_nfc_id set_nfc_id].
    apply String.eqb_neq. congruence.
  - destruct (by_nfc_id old_nfc d) eqn:Hp; [|reflexivity].
    apply by_nfc_id_true in Hp. exfalso. apply E.
    rewrite (Hu d caller old_nfc Hd Hinc Hp Hold). assumption.
Qed.

Lemma nfc_old_tag_released_witness :
  let db := run tagged empty_db in
  get_user_by_nfc "04:A2:19"
                  (snd (api_register_nfc "B" (mkNFCRegister "77:0C") db))
  = (inl NfcNotFound,
     snd (api_register_nfc "B" (mkNFCRegister "77:0C") db)).
Proof.
  apply (nfc_old_tag_released (run tagged empty_db) "B" "04:A2:19" "77:0C"
           (mkUserDoc "B" "bia@x.io" "Bia" "h2" 0 (Some "04:A2:19") 2)
           (mkNfcResponse "77:0C")).
  - exact (run_reachable tagged empty_db reach_empty tagged_fresh).
  - reflexivity.
  - reflexivity.
  - discriminate.
  - reflexivity.
Defined.

(** ** The log and the users over a run *)

Lemma effect_records db r db' :
  effect db r db' -> ids_ok db ->
  Forall record_ok (transactions db) -> Forall record_ok (transactions db').
Proof.
  intros He [_ Hsys] Hrec.
  destruct He as [ r | user_data uuid4 sha utcnow Hemail
                 | user_id a uuid4 utcnow d Hd Ha
                 | user_id nfc d Hd Hfree
                 | user_id payment_data uuid4 utcnow sender recipient
                           Hs Hr Ha Hb Hne ];
    cbn [transactions]; try assumption.
  - apply Forall_app. split; [assumption|]. constructor; [|constructor].
    split; cbn; [assumption|].
    intro E. apply Hsys. rewrite E. eapply find_by_id_ids; eassumption.
  - apply Forall_app. split; [assumption|]. constructor; [|constructor].
    split; cbn; assumption.
Qed.

(** X8: every record of the log of a reachable database has an amount that
    passed the handler's check, that is, one that is not [<= 0] (a positive
    number, or NaN, which compares false with everything), and two different
    parties; its recipient is a user of the database and its sender is a
    user or the sentinel "system". *)
Theorem records_well_formed :
  forall rs,
    uuids_fresh rs empty_db ->
    forall t, In t (transactions (run rs empty_db)) ->
      (amount t <=? 0) = false
      /\ from_user t <> to_user t
      /\ In (to_user t) (map u_id (users (run rs empty_db)))
      /\ (from_user t = "system"
          \/ In (from_user t) (map u_id (users (run rs empty_db)))).
Proof.
  intros rs Hf t Ht.
  pose proof (run_reachable rs empty_db reach_empty Hf) as Hr.
  assert (Hrec : Forall record_ok (transactions (run rs empty_db))).
  { clear Hf t Ht. induction Hr as [|db r Hr IH Hf]; [constructor|].
    apply effect_records with db r; [apply serve_effect| |assumption].
    apply c_ids. now apply reachable_consistent. }
  rewrite Forall_forall in Hrec. destruct (Hrec t Ht) as [Hpos Hne].
  destruct (c_parties _ (reachable_consistent _ Hr) t Ht) as [Hfrom Hto].
  now split_all.
Qed.

Lemma records_well_formed_witness :
  let t := mkTransaction "t2" "A" "B" 10 "almoço" 3 "transfer" in
  (amount t <=? 0) = false
  /\ from_user t <> to_user t
  /\ In (to_user t) (map u_id (users (run scenario empty_db)))
  /\ (from_user t = "system"
      \/ In (from_user t) (map u_id (users (run scenario empty_db)))).
Proof.
  apply (records_well_formed scenario scenario_fresh).
  vm_compute. right. left. reflexivity.
Defined.

Lemma serve_appends r db :
  exists new_users new_records,
    map identity (users (serve r db))
    = (map identity (users db) ++ map identity new_users)%list
    /\ transactions (serve r db) = (transactions db ++ new_records)%list.
Proof.
  destruct (serve_effect r db); cbn [users transactions];
    rewrite ?map_update_first by reflexivity.
  - exists [], []. now rewrite !app_nil_r.
  - eexists [_], []. rewrite map_app, app_nil_r. split; reflexivity.
  - eexists [], [_]. rewrite app_nil_r. split; reflexivity.
  - exists [], []. now rewrite !app_nil_r.
  - eexists [], [_]. rewrite app_nil_r. split; reflexivity.
Qed.

(** X9: the server only ever appends: whatever the requests served, from
    whatever database, the users it had are still there, in place, with the
    identifier, email, name, password digest and creation time they had, and
    the log it had is still there, record for record; new users and new
    records come after them. *)
Theorem run_appends :
  forall rs db,
  exists new_users new_records,
    map identity (users (run rs db))
    = (map identity (users db) ++ map identity new_users)%list
    /\ transactions (run rs db) = (transactions db ++ new_records)%list.
Proof.
  induction rs as [|r rs IH]; intro db.
  - exists [], []. cbn. now rewrite !app_nil_r.
  - cbn [run fold_left].
    destruct (IH (serve r db)) as (us2 & txs2 & Hu2 & Ht2).
    destruct (serve_appends r db) as (us1 & txs1 & Hu1 & Ht1).
    exists (us1 ++ us2)%list, (txs1 ++ txs2)%list.
    unfold run in Hu2, Ht2. rewrite Hu2, Ht2, Hu1, Ht1.
    now rewrite map_app, !app_assoc.
Qed.

(** ** Who a request touches *)

(** X12: [POST /api/pay] touches nobody but its two parties: whatever the
    outcome, a user who is neither the sender nor the recipient named in
    the request has afterwards the document it had. *)
Theorem pay_spares_third_parties :
  forall db user_id payment_data uuid4 utcnow other,
    other <> user_id ->
    other <> p_to_user payment_data ->
    find (by_id other)
         (users (snd (api_pay user_id payment_data uuid4 utcnow db)))
    = find (by_id other) (users db).
Proof.
  intros db user_id payment_data uuid4 utcnow other H1 H2.
  change (find (by_id other)
               (users (serve (ReqPay user_id payment_data uuid4 utcnow) db))
          = find (by_id other) (users db)).
  remember (ReqPay user_id payment_data uuid4 utcnow) as r eqn:Er.
  destruct (serve_effect r db); try discriminate Er; [reflexivity|].
  injection Er as -> -> -> ->. cbn [users].
  now rewrite !find_update_first_other by auto.
Qed.

Lemma pay_spares_third_parties_witness :
  find (by_id "B")
       (users (snd (api_pay "A" (mkPaymentRequest "C" 10 "x" "qr") "t9" 9
                            (mkDatabase [ana; bia;
                                         mkUserDoc "C" "c@x.io" "Caio" "h3"
                                                   0 None 2] []))))
  = find (by_id "B")
         (users (mkDatabase [ana; bia;
                             mkUserDoc "C" "c@x.io" "Caio" "h3" 0 None 2] [])).
Proof.
  apply (pay_spares_third_parties
           (mkDatabase [ana; bia; mkUserDoc "C" "c@x.io" "Caio" "h3" 0 None 2]
                       [])
           "A" (mkPaymentRequest "C" 10 "x" "qr") "t9" 9%Z "B");
    discriminate.
Defined.

(** X13: every endpoint behind [Depends(get_current_user)] refuses a token
    whose user is not in the database with the 401 error
    "Usuário não encontrado", before doing anything: the database is left
    as it was. *)
Theorem unknown_user_is_refused :
  forall generate_qr_code db user_id,
    find (by_id user_id) (users db) = None ->
    get_profile user_id db = refused_401 db
    /\ (forall recharge_data uuid4 utcnow,
          api_recharge user_id recharge_data uuid4 utcnow db = refused_401 db)
    /\ (forall nfc_data, api_register_nfc user_id nfc_data db = refused_401 db)
    /\ api_generate_qr generate_qr_code user_id db = refused_401 db
    /\ (forall payment_data uuid4 utcnow,
          api_pay user_id payment_data uuid4 utcnow db = refused_401 db)
    /\ api_get_transactions user_id db = refused_401 db
    /\ (forall q, api_search_users q user_id db = refused_401 db).
Proof.
  intros qr db user_id Hnone.
  unfold refused_401, get_profile, api_recharge, api_register_nfc, api_generate_qr,
    api_pay, api_get_transactions, api_search_users, get_current_user,
    bind, users_find_one.
  rewrite Hnone. now split_all.
Qed.

Lemma unknown_user_is_refused_witness :
  api_pay "Z" (mkPaymentRequest "B" 10 "x" "qr") "t9" 9 two_users
  = refused_401 two_users.
Proof.
  destruct (unknown_user_is_refused (fun s => s) two_users "Z" eq_refl)
    as (_ & _ & _ & _ & H & _).
  apply H.
Defined.

(** ** Any number of payments, interleaved in any way *)

Lemma in_update_first {A} (p : A -> bool) (f : A -> A) l y :
  In y (update_first p f l) -> In y l \/ exists x, In x l /\ y = f x.
Proof.
  induction l as [|x l IH]; simpl; [tauto|].
  destruct (p x); simpl.
  - intros [<-|H]; [right; exists x; auto | auto].
  - intros [<-|H]; [auto|].
    destruct (IH H) as [H'|(z & Hz & ->)]; [auto | right; exists z; auto].
Qed.

Lemma solvent_set_balance i b us :
  (b <? 0) = false -> solvent us -> solvent (update_first (by_id i) (set_balance b) us).
Proof.
  intros Hb Hs d Hd. apply in_update_first in Hd.
  destruct Hd as [Hd|(x & Hx & ->)]; [now apply Hs | exact Hb].
Qed.

Lemma resume_solvent c t db :
  solvent (users db) -> task_checked c t ->
  solvent (users (snd (resume c t db)))
  /\ task_checked c (fst (resume c t db)).
Proof.
  intros Hs Ht. destruct t as [|cu|cu r|cu r|cu r|o]; cbn [resume].
  - destruct (find (by_id (c_user_id c)) (users db)) as [d|] eqn:Hd;
      [|now split].
    destruct (p_amount (c_payment_data c) <=? 0) eqn:Ha; [now split|].
    destruct (balance (User_of_doc d) <? p_amount (c_payment_data c))
      eqn:Hb; [now split|].
    now split.
  - destruct (find (by_id (p_to_user (c_payment_data c))) (users db))
      as [r|] eqn:Hr; [|now split].
    destruct (String.eqb (id cu) (p_to_user (c_payment_data c)));
      [now split|].
    cbn [fst snd task_checked]. destruct Ht as [Ha Hb]. split_all; try assumption.
    apply Hs. now apply find_some in Hr.
  - cbn [fst snd users task_checked]. destruct Ht as (Ha & Hb & Hr).
    split; [|now split_all].
    apply solvent_set_balance; [now apply sub_nonneg | assumption].
  - cbn [fst snd users task_checked]. destruct Ht as (Ha & Hb & Hr).
    split; [|now split_all].
    apply solvent_set_balance; [now apply add_nonneg | assumption].
  - cbn [fst snd users task_checked]. now split.
  - now split.
Qed.

Lemma resume_nth_solvent i : forall ts db,
  solvent (users db) -> Forall (fun ct => task_checked (fst ct) (snd ct)) ts ->
  solvent (users (snd (resume_nth i ts db)))
  /\ Forall (fun ct => task_checked (fst ct) (snd ct))
            (fst (resume_nth i ts db)).
Proof.
  induction i as [|i IH]; intros [|[c t] ts] db Hs Hts; cbn [resume_nth];
    try (now split).
  - apply Forall_cons_iff in Hts. destruct Hts as [Ht Hts]. cbn in Ht.
    destruct (resume_solvent c t db Hs Ht) as [Hs' Ht'].
    destruct (resume c t db) as [t' db']. cbn [fst snd] in *.
    split; [assumption | now constructor].
  - apply Forall_cons_iff in Hts. destruct Hts as [Ht Hts].
    destruct (IH ts db Hs Hts) as [Hs' Hts'].
    destruct (resume_nth i ts db) as [ts' db']. cbn [fst snd] in *.
    split; [assumption | now constructor].
Qed.

(** X14: however many calls to [POST /api/pay] are in flight and however
    the event loop interleaves them, no balance is ever written below zero:
    from a database where no balance is below zero, every schedule leads to
    a database where no balance is below zero; this in binary64, rounding
    included.  (A balance that is NaN, as an amount that is NaN leaves
    behind, is not below zero, and not a number either.) *)
Theorem no_schedule_overdraws :
  forall schedule db calls,
    solvent (users db) ->
    solvent (users (database (run_schedule schedule (start db calls)))).
Proof.
  intros schedule db calls Hs.
  assert (Hts : Forall (fun ct => task_checked (fst ct) (snd ct))
                       (tasks (start db calls))).
  { unfold start. cbn [tasks]. apply Forall_forall. intros ct Hct.
    apply in_map_iff in Hct. destruct Hct as (c & <- & _). exact I. }
  change (solvent (users (database (start db calls)))) in Hs.
  revert Hs Hts. generalize (start db calls) as s.
  induction schedule as [|i schedule IH]; intros s Hs Hts; [exact Hs|].
  cbn [run_schedule].
  destruct (resume_nth_solvent i (tasks s) (database s) Hs Hts) as [Hs' Hts'].
  destruct (resume_nth i (tasks s) (database s)) as [ts db'].
  apply IH; assumption.
Qed.

Lemma no_schedule_overdraws_witness :
  solvent (users (database (run_schedule [0; 1; 1; 0; 0; 1; 0; 1; 1; 0]%nat
                                         (start two_users racing)))).
Proof.
  apply (no_schedule_overdraws [0; 1; 1; 0; 0; 1; 0; 1; 1; 0]%nat
                               two_users racing).
  intros d [<-|[<-|[]]]; reflexivity.
Defined.

(** ** Search and history, in full *)

Lemma search_filter_plain q current_user d :
  search_filter (literals q) current_user d = true
  <-> matches_query q current_user d.
Proof.
  unfold search_filter, matches_query, contains_ci.
  rewrite andb_true_iff, negb_true_iff, String.eqb_neq, orb_true_iff.
  now rewrite !regex_search_literals, !containsb_spec.
Qed.

(** X15: for a query of at least two characters without metacharacters,
    [GET /api/users/search] returns only users other than the caller whose
    name or email contains the query, whatever the case of the letters, and,
    when it returns fewer than ten, it returns every such user. *)
Theorem search_plain_exact :
  forall db q current_user,
    (2 <= String.length q)%nat ->
    plain q = true ->
    exists hits,
      search_users q current_user db = (inr (Some hits), db)
      /\ (forall h, In h hits ->
            exists d, In d (users db) /\ matches_query q current_user d
                      /\ h = mkSearchHit (u_id d) (u_name d) (u_email d))
      /\ ((List.length hits < 10)%nat ->
          forall d, In d (users db) -> matches_query q current_user d ->
                    In (mkSearchHit (u_id d) (u_name d) (u_email d)) hits).
Proof.
  intros db q current_user Hlen Hplain.
  rewrite search_users_eq.
  assert (E : (String.length q <? 2)%nat = false) by now apply Nat.ltb_ge.
  rewrite E, (regex_compile_plain _ Hplain). cbn [option_map].
  set (found := filter (search_filter (literals q) current_user) (users db)).
  eexists. split; [reflexivity|]. split.
  - intros h Hh. apply in_map_iff in Hh. destruct Hh as (d & <- & Hd).
    apply in_firstn, filter_In in Hd. destruct Hd as [Hin Hd].
    exists d. split_all; [assumption | now apply search_filter_plain
                         | reflexivity].
  - rewrite length_map. intros Hfew d Hin Hm.
    assert (Hall : firstn 10 found = found).
    { apply firstn_all2. rewrite length_firstn in Hfew. lia. }
    rewrite Hall.
    apply (in_map (fun user => mkSearchHit (u_id user) (u_name user)
                                           (u_email user))).
    apply filter_In. split; [assumption | now apply search_filter_plain].
Qed.

Lemma search_plain_exact_witness :
  exists hits,
    search_users "BO" (User_of_doc ana) directory = (inr (Some hits), directory)
    /\ (forall h, In h hits ->
          exists d, In d (users directory)
                    /\ matches_query "BO" (User_of_doc ana) d
                    /\ h = mkSearchHit (u_id d) (u_name d) (u_email d))
    /\ ((List.length hits < 10)%nat ->
        forall d, In d (users directory) ->
                  matches_query "BO" (User_of_doc ana) d ->
                  In (mkSearchHit (u_id d) (u_name d) (u_email d)) hits).
Proof.
  apply (search_plain_exact directory "BO" (User_of_doc ana)).
  - cbn. lia.
  - reflexivity.
Defined.



(** ** The QR payload *)

Lemma split_at_colon a : forall b x y,
  no_colon a = true -> no_colon b = true ->
  a ++ String ":" x = b ++ String ":" y -> a = b /\ x = y.
Proof.
  induction a as [|c a IH]; intros [|c' b] x y Ha Hb H; cbn in *.
  - injection H as ->. now split.
  - injection H as <- _. discriminate Hb.
  - injection H as -> _. discriminate Ha.
  - injection H as -> H.
    apply andb_true_iff in Ha, Hb.
    destruct (IH b x y (proj2 Ha) (proj2 Hb) H) as [-> ->]. now split.
Qed.

(** X19: [GET /api/generate-qr] writes nothing and answers with the
    payload "cashless:<id>:<name>", its rendering and the name; as long as
    identifiers hold no colon (those of [uuid4] hold none), the payload
    tells the user: two users with the same payload have the same identifier
    and the same name. *)
Theorem qr_identifies_user :
  forall generate_qr_code db u1 u2,
    no_colon (id u1) = true ->
    no_colon (id u2) = true ->
    generate_payment_qr generate_qr_code u1 db
    = (inr (mkQrResponse ("cashless:" ++ id u1 ++ ":" ++ name u1)
                         (generate_qr_code
                            ("cashless:" ++ id u1 ++ ":" ++ name u1))
                         (name u1)), db)
    /\ (qr_string u1 = qr_string u2 -> id u1 = id u2 /\ name u1 = name u2).
Proof.
  intros g db u1 u2 H1 H2. split; [reflexivity|].
  unfold qr_string. intro H.
  assert (H' : id u1 ++ String ":" (name u1) = id u2 ++ String ":" (name u2)).
  { cbn in H. injection H as H. exact H. }
  now apply split_at_colon.
Qed.

Lemma qr_identifies_user_witness :
  id (User_of_doc ana) = id (mkUser "A" "ana@y.io" "Ana" 5 None)
  /\ name (User_of_doc ana) = name (mkUser "A" "ana@y.io" "Ana" 5 None).
Proof.
  destruct (qr_identifies_user (fun s => s) two_users
              (User_of_doc ana) (mkUser "A" "ana@y.io" "Ana" 5 None)
              eq_refl eq_refl)
    as [_ H].
  apply H. reflexivity.
Defined.

(** ** More on registration, recharge and tags *)

(** X20: a tag registration never touches money: whatever its outcome, and
    from whatever database, every user has afterwards the identifier and the
    balance it had, and the log is the one it was. *)
Theorem register_nfc_keeps_money :
  forall db user_id nfc_data,
    let db' := snd (api_register_nfc user_id nfc_data db) in
    map (fun d => (u_id d, u_balance d)) (users db')
    = map (fun d => (u_id d, u_balance d)) (users db)
    /\ transactions db' = transactions db.
Proof.
  intros db user_id nfc_data db'. subst db'.
  destruct nfc_data as [nfc].
  destruct (find (by_id user_id) (users db)) as [d|] eqn:Hd.
  - destruct (find (by_nfc_id nfc) (users db)) as [e|] eqn:He.
    + destruct (string_dec (u_id e) user_id) as [Heq|Hne].
      * rewrite register_nfc_success with (d := d);
          [|assumption|intros e' He'; congruence].
        cbn [snd users transactions].
        now rewrite map_update_first by reflexivity.
      * rewrite register_nfc_in_use with (d := d) (e := e) by assumption.
        now split.
    + rewrite register_nfc_success with (d := d);
        [|assumption|intros e' He'; congruence].
      cbn [snd users transactions].
      now rewrite map_update_first by reflexivity.
  - rewrite register_nfc_unauthorized by assumption. now split.
Qed.

(** X21: a recharge touches nobody but the caller: whatever its outcome,
    a user with another identifier has afterwards the document it had. *)
Theorem recharge_spares_others :
  forall db user_id recharge_data uuid4 utcnow other,
    other <> user_id ->
    find (by_id other)
         (users (snd (api_recharge user_id recharge_data uuid4 utcnow db)))
    = find (by_id other) (users db).
Proof.
  intros db user_id [a] uuid4 utcnow other Hne.
  destruct (find (by_id user_id) (users db)) as [d|] eqn:Hd.
  - destruct (a <=? 0) eqn:Ha.
    + now rewrite recharge_invalid_amount with (d := d) by assumption.
    + rewrite recharge_success with (d := d) by assumption.
      cbn [snd users]. now rewrite find_update_first_other by auto.
  - unfold api_recharge, get_current_user, bind, users_find_one.
    now rewrite Hd.
Qed.

Lemma recharge_spares_others_witness :
  find (by_id "A")
       (users (snd (api_recharge "B" (mkRechargeRequest 25) "t5" 9 two_users)))
  = find (by_id "A") (users two_users).
Proof.
  apply (recharge_spares_others two_users "B" (mkRechargeRequest 25)
           "t5" 9%Z "A").
  discriminate.
Defined.

(** X22: a user who has just registered is known to the server: after a
    registration that is accepted, with an identifier no user had,
    [GET /api/profile] with that identifier answers with the new user: the
    email and name given, a zero balance and no tag. *)
Theorem profile_after_register :
  forall db user_data uuid4 sha256_hex utcnow,
    ~ In (uc_email user_data) (map u_email (users db)) ->
    ~ In uuid4 (map u_id (users db)) ->
    let db' := snd (register user_data uuid4 sha256_hex utcnow db) in
    get_profile uuid4 db'
    = (inr (mkUser uuid4 (uc_email user_data) (uc_name user_data) 0 None),
       db').
Proof.
  intros db user_data uuid4 sha256_hex utcnow Hemail Hid db'. subst db'.
  apply find_by_email_none in Hemail.
  rewrite register_success by assumption.
  unfold get_profile, get_current_user, bind, users_find_one. cbn [users].
  assert (Hnone : find (by_id uuid4) (users db) = None).
  { apply find_all_false. intros x Hx. apply by_id_false.
    intro E. apply Hid. rewrite <- E. now apply in_map. }
  rewrite (find_app_none _ _ _ Hnone).
  unfold by_id at 1. cbn [u_id]. rewrite String.eqb_refl. reflexivity.
Qed.

Lemma profile_after_register_witness :
  let user_data := mkUserCreate "caio@x.io" "Caio" "segredo" in
  let db' := snd (register user_data "C" "h3" 9 two_users) in
  get_profile "C" db' = (inr (mkUser "C" "caio@x.io" "Caio" 0 None), db').
Proof.
  apply (profile_after_register two_users
           (mkUserCreate "caio@x.io" "Caio" "segredo") "C" "h3" 9%Z);
    cbn; intros [H|[H|[]]]; discriminate H.
Defined.

(** X23: an email registers once: after a registration that is accepted,
    every further registration with the same email, whatever the name, the
    password and the identifier drawn, ends in the 400 error and writes
    nothing. *)
Theorem email_registers_once :
  forall db user_data uuid4 sha256_hex utcnow user_data' uuid4' sha' utcnow',
    ~ In (uc_email user_data) (map u_email (users db)) ->
    uc_email user_data' = uc_email user_data ->
    let db' := snd (register user_data uuid4 sha256_hex utcnow db) in
    register user_data' uuid4' sha' utcnow' db' = (inl EmailInUse, db').
Proof.
  intros db user_data uuid4 sha256_hex utcnow user_data' uuid4' sha' utcnow'
         Hfree Hsame db'. subst db'.
  apply find_by_email_none in Hfree.
  rewrite register_success by assumption.
  eapply register_email_in_use. cbn [users]. rewrite Hsame.
  rewrite (find_app_none _ _ _ Hfree).
  unfold by_email at 1. cbn [u_email]. rewrite String.eqb_refl. reflexivity.
Qed.

Lemma email_registers_once_witness :
  let db' := snd (register (mkUserCreate "caio@x.io" "Caio" "segredo")
                           "C" "h3" 9 two_users) in
  register (mkUserCreate "caio@x.io" "Outro" "senha") "D" "h4" 10 db'
  = (inl EmailInUse, db').
Proof.
  apply (email_registers_once two_users
           (mkUserCreate "caio@x.io" "Caio" "segredo") "C" "h3" 9%Z
           (mkUserCreate "caio@x.io" "Outro" "senha") "D" "h4" 10%Z).
  - cbn. intros [H|[H|[]]]; discriminate H.
  - reflexivity.
Defined.

(** ** Amounts that are not numbers, amounts that are lost *)

Lemma lt_nan b : (b <? nan) = false.
Proof.
  rewrite ltb_spec. change (Prim2SF nan) with S754_nan.
  now destruct (Prim2SF b).
Qed.

Lemma nan_lt b : (nan <? b) = false.
Proof. rewrite ltb_spec. reflexivity. Qed.

Lemma add_nan b : b + nan = nan.
Proof.
  apply Prim2SF_inj. rewrite add_spec. change (Prim2SF nan) with S754_nan.
  now destruct (Prim2SF b).
Qed.

Lemma sub_nan b : b - nan = nan.
Proof.
  apply Prim2SF_inj. rewrite sub_spec. change (Prim2SF nan) with S754_nan.
  now destruct (Prim2SF b).
Qed.

(** X24: an amount that is NaN passes both checks of [POST /api/pay], since
    NaN is neither [<= 0] nor above any balance: sent to another user who
    exists, the payment goes through whatever the sender holds: both
    balances become NaN, a record with the amount NaN is appended, and the
    handler returns its success value, with a new balance of NaN. *)
Theorem nan_payment_is_accepted :
  forall db user_id payment_data uuid4 utcnow sender recipient,
    find (by_id user_id) (users db) = Some sender ->
    find (by_id (p_to_user payment_data)) (users db) = Some recipient ->
    user_id <> p_to_user payment_data ->
    p_amount payment_data = nan ->
    let result := api_pay user_id payment_data uuid4 utcnow db in
    fst result = inr (mkPayResponse uuid4 nan (u_name recipient)) /\
    balance_of (snd result) user_id = nan /\
    balance_of (snd result) (p_to_user payment_data) = nan /\
    transactions (snd result)
    = (transactions db
       ++ [mkTransaction uuid4 user_id (p_to_user payment_data) nan
                         (p_description payment_data) utcnow
                         (p_method payment_data)])%list.
Proof.
  intros db user_id payment_data uuid4 utcnow sender recipient
         Hs Hr Hne Ha result. subst result.
  rewrite (pay_success db user_id payment_data uuid4 utcnow sender Hs
                       recipient);
    [|now rewrite Ha|rewrite Ha; apply lt_nan|assumption|assumption].
  cbn [fst snd].
  rewrite (balance_of_debited _ _ _ _ _ _ _ Hne Hs).
  rewrite (balance_of_credited _ _ _ _ _ _ _ Hne Hr).
  rewrite Ha, sub_nan, add_nan. now split_all.
Qed.

Lemma nan_payment_is_accepted_witness :
  let result := api_pay "B" (mkPaymentRequest "A" nan "x" "qr") "t1" 5
                        two_users in
  fst result = inr (mkPayResponse "t1" nan "Ana") /\
  balance_of (snd result) "B" = nan /\
  balance_of (snd result) "A" = nan /\
  transactions (snd result)
  = (transactions two_users
     ++ [mkTransaction "t1" "B" "A" nan "x" 5 "qr"])%list.
Proof.
  apply (nan_payment_is_accepted two_users "B"
           (mkPaymentRequest "A" nan "x" "qr") "t1" 5%Z bia ana);
    try reflexivity.
  discriminate.
Defined.

(** X25: a recharge of NaN passes the check of [POST /api/recharge] too and
    leaves the caller with a balance that is NaN; no amount is above such a
    balance, so every later payment of the caller whose amount is not
    [<= 0], to another user who exists, passes the balance check and goes
    through. *)
Theorem nan_recharge_funds_everything :
  forall db user_id u1 n1 payment_data u2 n2 d recipient,
    find (by_id user_id) (users db) = Some d ->
    find (by_id (p_to_user payment_data)) (users db) = Some recipient ->
    user_id <> p_to_user payment_data ->
    (p_amount payment_data <=? 0) = false ->
    let recharged := api_recharge user_id (mkRechargeRequest nan) u1 n1 db in
    fst recharged = inr (mkRechargeResponse nan u1) /\
    balance_of (snd recharged) user_id = nan /\
    fst (api_pay user_id payment_data u2 n2 (snd recharged))
    = inr (mkPayResponse u2 nan (u_name recipient)).
Proof.
  intros db user_id u1 n1 payment_data u2 n2 d recipient
         Hd Hr Hne Ha recharged. subst recharged.
  rewrite (recharge_success db user_id nan u1 n1 d Hd eq_refl).
  cbn [fst snd]. rewrite add_nan.
  set (db1 := mkDatabase _ _).
  assert (Hd1 : find (by_id user_id) (users db1) = Some (set_balance nan d)).
  { subst db1. cbn [users]. rewrite find_update_first_same by reflexivity.
    now rewrite Hd. }
  assert (Hr1 : find (by_id (p_to_user payment_data)) (users db1)
                = Some recipient).
  { subst db1. cbn [users]. now rewrite find_update_first_other by auto. }
  split_all.
  - reflexivity.
  - now rewrite (balance_of_find _ _ _ Hd1).
  - rewrite (pay_success db1 user_id payment_data u2 n2 _ Hd1 recipient Ha);
      [|apply nan_lt|assumption|assumption].
    cbn [fst u_balance set_balance]. f_equal. f_equal.
    apply Prim2SF_inj. rewrite sub_spec. reflexivity.
Qed.

Lemma nan_recharge_funds_everything_witness :
  let recharged := api_recharge "B" (mkRechargeRequest nan) "t1" 5
                                two_users in
  fst recharged = inr (mkRechargeResponse nan "t1") /\
  balance_of (snd recharged) "B" = nan /\
  fst (api_pay "B" (mkPaymentRequest "A" 1000000 "x" "qr") "t2" 6
               (snd recharged))
  = inr (mkPayResponse "t2" nan "Ana").
Proof.
  apply (nan_recharge_funds_everything two_users "B" "t1" 5%Z
           (mkPaymentRequest "A" 1000000 "x" "qr") "t2" 6%Z bia ana);
    try reflexivity.
  discriminate.
Defined.

(** X26: a recharge can be lost to rounding: a user who holds 1e16 and
    recharges 1 is answered with success and a new balance of 1e16, holds
    1e16 afterwards, and the log has a record of a recharge of 1. *)
Theorem recharge_can_be_lost :
  let db := mkDatabase [mkUserDoc "A" "ana@x.io" "Ana" "h1" 1e16 None 0] [] in
  api_recharge "A" (mkRechargeRequest 1) "t1" 1 db
  = (inr (mkRechargeResponse 1e16 "t1"),
     mkDatabase [mkUserDoc "A" "ana@x.io" "Ana" "h1" 1e16 None 0]
                [mkTransaction "t1" "system" "A" 1 "Recarga de saldo" 1
                               "recharge"]).
Proof. vm_compute. reflexivity. Qed.

(** ** Requests one after the other *)

(** X17: what is recharged can be spent: after a user recharges a positive
    amount, a payment by that user of a positive amount that the new balance
    (the old one plus the recharge, in binary64) covers, to another user who
    exists, succeeds and leaves the user with the new balance less the
    payment, in binary64. *)
Theorem recharge_funds_payment :
  forall db user_id a payment_data u1 n1 u2 n2 sender rcp,
    find (by_id user_id) (users db) = Some sender ->
    find (by_id (p_to_user payment_data)) (users db) = Some rcp ->
    user_id <> p_to_user payment_data ->
    (0 <? a) = true ->
    (0 <? p_amount payment_data) = true ->
    (p_amount payment_data <=? u_balance sender + a) = true ->
    let db1 := snd (api_recharge user_id (mkRechargeRequest a) u1 n1 db) in
    fst (api_pay user_id payment_data u2 n2 db1)
    = inr (mkPayResponse u2 (u_balance sender + a - p_amount payment_data)
                         (u_name rcp)).
Proof.
  intros db user_id a payment_data u1 n1 u2 n2 sender rcp
         Hs Hr Hne Ha Hp Hle db1. subst db1.
  apply lt_not_le in Ha, Hp. apply le_not_lt in Hle.
  rewrite recharge_success with (d := sender) by assumption. cbn [snd].
  set (db1 := mkDatabase _ _).
  assert (Hs1 : find (by_id user_id) (users db1)
                = Some (set_balance (u_balance sender + a) sender)).
  { subst db1. cbn [users]. rewrite find_update_first_same by reflexivity.
    now rewrite Hs. }
  assert (Hr1 : find (by_id (p_to_user payment_data)) (users db1) = Some rcp).
  { subst db1. cbn [users]. now rewrite find_update_first_other by auto. }
  now rewrite (pay_success db1 user_id payment_data u2 n2 _ Hs1 rcp Hp Hle
                           Hr1 Hne).
Qed.

Lemma recharge_funds_payment_witness :
  fst (api_pay "B" (mkPaymentRequest "A" 30 "x" "qr") "t8" 8
               (snd (api_recharge "B" (mkRechargeRequest 30) "t7" 7
                                  two_users)))
  = inr (mkPayResponse "t8" (u_balance bia + 30 - 30) "Ana").
Proof.
  apply (recharge_funds_payment two_users "B" 30
           (mkPaymentRequest "A" 30 "x" "qr") "t7" 7%Z "t8" 8%Z bia ana);
    try reflexivity.
  discriminate.
Defined.

(** X27: paying back need not restore the balances: A holds 0.2 and B holds
    0.1; A pays B 0.2 and B pays A 0.2 back, both payments are accepted, and
    B is left with 0.10000000000000003. *)
Theorem pay_back_need_not_restore :
  let db := mkDatabase [mkUserDoc "A" "ana@x.io" "Ana" "h1" fifth None 0;
                        mkUserDoc "B" "bia@x.io" "Bia" "h2" tenth None 1] [] in
  let db1 := snd (api_pay "A" (mkPaymentRequest "B" fifth "x" "qr") "t1" 1
                          db) in
  let result := api_pay "B" (mkPaymentRequest "A" fifth "x" "qr") "t2" 2
                        db1 in
  fst result = inr (mkPayResponse "t2" 0x1.999999999999cp-4 "Ana")
  /\ balance_of (snd result) "A" = fifth
  /\ balance_of (snd result) "B" = 0x1.999999999999cp-4
  /\ (tenth <? 0x1.999999999999cp-4) = true.
Proof. vm_compute. repeat split; reflexivity. Qed.
